(** * SafarSorted API: a shallow embedding of [server.js]

    The development follows the Express handlers of [server.js]:
    the sliding-window rate limiter [apiLimiter], the JSON file store
    ([readData]/[writeData]), and the handlers for
    [POST /api/inquiry], [GET /api/admin/inquiries],
    [PUT /api/admin/inquiries/:id], [DELETE /api/admin/inquiries/:id]
    and [GET /api/admin/stats].

    Conventions of the model.
    - A JavaScript string is the list of its UTF-16 code units.
    - A JavaScript number is modelled by the integer it denotes; this is
      exact on the safe-integer range of doubles, which is where ids,
      counters and millisecond clocks live.  [NaN], the one non-integer
      result that [parseInt] can produce, is kept apart in [jsnum].
    - Request fields are primitive JSON values; a request body is a finite
      map from keys to values and a missing key reads as [undefined].
    - The time of day is an input of each handler.
    - The functions of the runtime that the handlers call (regular
      expression matching, [parseInt], [split], [startsWith], base64
      decoding by [Buffer.from] and [toString('ascii')]) are written out
      after their documented behaviour. *)

From Stdlib Require Import ZArith NArith Ascii String DecimalString DecimalPos.
From stdpp Require Import base numbers option list strings gmap sorting.

Local Open Scope Z_scope.

(** ** JavaScript values *)

Abbreviation jsstring := (list N).

(** A string literal of the source, as code units. *)
Definition lit (s : string) : jsstring :=
  List.map N_of_ascii (list_ascii_of_string s).

(** Result of a numeric conversion: an integer or [NaN]. *)
Inductive jsnum :=
| NaN
| Num (z : Z).

Inductive jsval :=
| JUndefined
| JNull
| JBool (b : bool)
| JNum (z : Z)
| JStr (s : jsstring).

#[global] Instance jsnum_eq_dec : EqDecision jsnum.
Proof. solve_decision. Defined.

#[global] Instance jsval_eq_dec : EqDecision jsval.
Proof. solve_decision. Defined.

(** [ToBoolean]: the falsy primitives are [undefined], [null], [false],
    [0] and the empty string. *)
Definition truthy (v : jsval) : bool :=
  match v with
  | JUndefined | JNull => false
  | JBool b => b
  | JNum z => negb (z =? 0)
  | JStr s => match s with [] => false | _ :: _ => true end
  end.

(** [a || b] *)
Definition js_or (a b : jsval) : jsval := if truthy a then a else b.

(** [ToString] on primitives.  A number is written as its plain decimal
    numeral, which is what the runtime prints for every integer below
    [10^21] in absolute value; from there on the runtime switches to
    exponent notation, which this definition does not follow. *)
Definition ToString (v : jsval) : jsstring :=
  match v with
  | JUndefined => lit "undefined"
  | JNull => lit "null"
  | JBool true => lit "true"
  | JBool false => lit "false"
  | JNum z => lit (NilZero.string_of_int (Z.to_int z))
  | JStr s => s
  end.

(** Destructuring a field out of a request body. *)
Definition field (body : gmap string jsval) (k : string) : jsval :=
  default JUndefined (body !! k).

(** ** Character classes and the two regular expressions *)

(** The class [\s]: white space and line terminators. *)
Definition is_space (c : N) : bool :=
  ((9 <=? c) && (c <=? 13) || (c =? 32) || (c =? 160) || (c =? 5760)
   || (8192 <=? c) && (c <=? 8202) || (c =? 8232) || (c =? 8233)
   || (c =? 8239) || (c =? 8287) || (c =? 12288) || (c =? 65279))%N.

(** The class [[0-9]]. *)
Definition is_digit (c : N) : bool := ((48 <=? c) && (c <=? 57))%N.

(** The class [[\+]]. *)
Definition is_plus (c : N) : bool := (c =? 43)%N.

(** [s.replace(/\s/g, '')] *)
Definition strip_spaces (s : jsstring) : jsstring :=
  List.filter (fun c => negb (is_space c)) s.

(** The fragment of regular expressions that the source uses. *)
Inductive regex :=
| RClass (p : N -> bool)
| ROpt (r : regex)
| RRep (lo hi : nat) (r : regex)
| RSeq (r1 r2 : regex).

(** Bounded greedy repetition [m{lo,hi}] of a matcher [m]: one more
    iteration is tried first; stopping is allowed once [lo] iterations
    have been made. *)
Fixpoint repeat_match (m : jsstring -> (jsstring -> bool) -> bool)
    (lo hi : nat) (s : jsstring) (k : jsstring -> bool) : bool :=
  match hi with
  | O => match lo with O => k s | S _ => false end
  | S hi' =>
      m s (fun s' => repeat_match m (Nat.pred lo) hi' s' k)
      || match lo with O => k s | S _ => false end
  end.

(** Backtracking matcher: [k] is what remains to be matched after [r].
    Quantifiers are greedy, as in JavaScript. *)
Fixpoint rmatch (r : regex) (s : jsstring) (k : jsstring -> bool) : bool :=
  match r with
  | RClass p => match s with c :: s' => p c && k s' | [] => false end
  | ROpt r1 => rmatch r1 s k || k s
  | RSeq r1 r2 => rmatch r1 s (fun s' => rmatch r2 s' k)
  | RRep lo hi r1 => repeat_match (rmatch r1) lo hi s k
  end.

(** The anchor [$]: nothing is left. *)
Definition at_end (rest : jsstring) : bool :=
  match rest with [] => true | _ :: _ => false end.

(** [/^r$/.test(s)]: the match starts at the first code unit and must
    consume the whole string (no [m] flag). *)
Definition test_anchored (r : regex) (s : jsstring) : bool :=
  rmatch r s at_end.

(** [/^[\+]?[0-9]{10,15}$/] *)
Definition phone_regex : regex :=
  RSeq (ROpt (RClass is_plus)) (RRep 10 15 (RClass is_digit)).

(** ** [parseInt] *)

(** Value of a digit or letter in a radix up to 36. *)
Definition digit_value (c : N) : option Z :=
  if ((48 <=? c) && (c <=? 57))%N then Some (Z.of_N c - 48)
  else if ((97 <=? c) && (c <=? 122))%N then Some (Z.of_N c - 87)
  else if ((65 <=? c) && (c <=? 90))%N then Some (Z.of_N c - 55)
  else None.

(** Longest prefix of digits in radix [R]; [acc] is [NaN] until a digit
    has been read.  The value is the exact integer that the digits
    denote; the runtime returns the nearest double, which is the same
    number as long as the value is a safe integer ([safe_integer]
    below). *)
Fixpoint parse_digits (R : Z) (acc : jsnum) (s : jsstring) : jsnum :=
  match s with
  | [] => acc
  | c :: s' =>
      match digit_value c with
      | Some d =>
          if d <? R
          then parse_digits R
                 (Num (R * match acc with NaN => 0 | Num a => a end + d)) s'
          else acc
      | None => acc
      end
  end.

(** Removal of leading white space. *)
Fixpoint trim_start (s : jsstring) : jsstring :=
  match s with
  | c :: s' => if is_space c then trim_start s' else s
  | [] => []
  end.

(** Unary minus. *)
Definition negate (n : jsnum) : jsnum :=
  match n with NaN => NaN | Num z => Num (- z) end.

(** [parseInt(string)] with no radix argument: leading white space, an
    optional sign, an optional [0x]/[0X] prefix, then digits. *)
Definition parseInt_string (s : jsstring) : jsnum :=
  let s1 := trim_start s in
  let '(neg, s2) :=
    match s1 with
    | 45%N :: r => (true, r)
    | 43%N :: r => (false, r)
    | _ => (false, s1)
    end in
  let n :=
    match s2 with
    | 48%N :: 120%N :: r => parse_digits 16 NaN r
    | 48%N :: 88%N :: r => parse_digits 16 NaN r
    | _ => parse_digits 10 NaN s2
    end in
  if neg then negate n else n.

(** [parseInt(v)]: the argument is converted to a string first. *)
Definition parseInt (v : jsval) : jsnum := parseInt_string (ToString v).

(** [x === n] for a stored number [x] and a conversion result [n]. *)
Definition num_eqb (x : Z) (n : jsnum) : bool :=
  match n with NaN => false | Num z => x =? z end.

(** ** The stored data *)

Record Inquiry := {
  id : Z;
  name : jsval;
  phone : jsstring;
  email : jsval;
  travelers : jsval;
  destination : jsval;
  travel_date : jsval;
  traveler_type : jsval;
  message : jsval;
  status : jsval;
  notes : jsval;
  created_at : jsstring;
  updated_at : jsstring
}.

Record Document := {
  inquiries : list Inquiry;
  lastId : Z
}.

(** [{ inquiries: [], lastId: 0 }] *)
Definition empty_document : Document := {| inquiries := []; lastId := 0 |}.

(** The data file: its parsed contents, [None] when the file is missing
    or does not parse, and the number of times it has been written. *)
Record Disk := {
  content : option Document;
  writes : nat
}.

(** State of the file once [initDatabase] has run on a fresh directory. *)
Definition initDatabase : Disk :=
  {| content := Some empty_document; writes := 1 |}.

Definition readData (d : Disk) : Document :=
  match content d with
  | Some data => data
  | None => empty_document
  end.

Definition writeData (data : Document) (d : Disk) : Disk :=
  {| content := Some data; writes := S (writes d) |}.

(** [JSON.stringify] of a number: [NaN] is written as [null]. *)
Definition JSON_number (n : jsnum) : jsval :=
  match n with NaN => JNull | Num z => JNum z end.

(** Bodies of the JSON responses. *)
Inductive json :=
| JError (error : string)
| JSubmitted (new_id : Z)
| JInquiries (l : list Inquiry)
| JUpdated (inquiry : Inquiry)
| JDeleted.

Record response := {
  code : Z;
  payload : json
}.

(** [res.status(c).json(p)] *)
Definition respond (c : Z) (p : json) : response :=
  {| code := c; payload := p |}.

(** What a middleware or an early [return res...] decides: hand over to
    the next handler, or answer. *)
Inductive gate :=
| Next
| Reply (r : response).

(** ** Rate limiting *)

(** The answer of the limiter to a client over its quota. *)
Definition too_many : response :=
  respond 429 (JError "Too many requests, please try again later.").

Section RateLimit.
Context `{Countable K}.

(** [rateLimitStore] maps a client key to the instants (milliseconds) of
    its recorded requests. *)
Definition apiLimiter (ip : K) (now : Z) (rateLimitStore : gmap K (list Z))
  : gate * gmap K (list Z) :=
  let requests := default [] (rateLimitStore !! ip) in
  let recentRequests := filter (λ time, now - time < 60000) requests in
  if (30 <=? length recentRequests)%nat
  then (Reply too_many, rateLimitStore)
  else (Next, <[ip := recentRequests ++ [now]]> rateLimitStore).

(** Successive calls of one client at the instants [times]. *)
Fixpoint limiter_calls (ip : K) (times : list Z)
    (rateLimitStore : gmap K (list Z)) : list gate * gmap K (list Z) :=
  match times with
  | [] => ([], rateLimitStore)
  | now :: later =>
      let '(g, st) := apiLimiter ip now rateLimitStore in
      let '(gs, st') := limiter_calls ip later st in
      (g :: gs, st')
  end.
End RateLimit.

(** ** [POST /api/inquiry] *)

(** The handler behind [apiLimiter].  [now1] and [now2] are the two
    readings of the clock, [new Date().toISOString()], for [created_at]
    and [updated_at].  A truthy [phone] that is not a string has no
    [replace] method: the call throws and the [catch] answers 500.
    The new record is given as [writeData] serialises it, so that
    [travelers] is [JSON_number] of what [parseInt] returns. *)
Definition post_inquiry (now1 now2 : jsstring) (body : gmap string jsval)
    (d : Disk) : response * Disk :=
  let name := field body "name" in
  let phone := field body "phone" in
  let travelers := field body "travelers" in
  let destination := field body "destination" in
  let travelDate := field body "travelDate" in
  let travelerType := field body "travelerType" in
  let email := field body "email" in
  let message := field body "message" in
  if negb (truthy name) || negb (truthy phone) || negb (truthy travelers)
     || negb (truthy destination)
  then (respond 400 (JError "Missing required fields"), d)
  else
    match phone with
    | JStr phone =>
        let cleanPhone := strip_spaces phone in
        if negb (test_anchored phone_regex cleanPhone)
        then (respond 400 (JError "Invalid phone number"), d)
        else
          let data := readData d in
          let lastId' := lastId data + 1 in
          let inquiry :=
            {| id := lastId';
               name := name;
               phone := cleanPhone;
               email := js_or email (JStr []);
               travelers := JSON_number (parseInt travelers);
               destination := destination;
               travel_date := js_or travelDate JNull;
               traveler_type := js_or travelerType JNull;
               message := js_or message (JStr []);
               status := JStr (lit "new");
               notes := JNull;
               created_at := now1;
               updated_at := now2 |} in
          let data' :=
            {| inquiries := inquiries data ++ [inquiry];
               lastId := lastId' |} in
          (respond 201 (JSubmitted (id inquiry)), writeData data' d)
    | _ => (respond 500 (JError "Failed to submit inquiry"), d)
    end.

(** The route: the limiter first, then the handler. *)
Definition route_post_inquiry `{Countable K} (ip : K) (now : Z)
    (now1 now2 : jsstring) (body : gmap string jsval)
    (st : gmap K (list Z) * Disk) : response * (gmap K (list Z) * Disk) :=
  match apiLimiter ip now st.1 with
  | (Reply r, rl) => (r, (rl, st.2))
  | (Next, rl) =>
      let '(r, d) := post_inquiry now1 now2 body st.2 in (r, (rl, d))
  end.

(** ** Base64 and the [Authorization] header *)

(** Value of a character of the base64 alphabet (the URL-safe characters
    are accepted too). *)
Definition unbase64 (c : N) : option N :=
  (if (65 <=? c) && (c <=? 90) then Some (c - 65)
   else if (97 <=? c) && (c <=? 122) then Some (c - 71)
   else if (48 <=? c) && (c <=? 57) then Some (c + 4)
   else if (c =? 43) || (c =? 45) then Some 62
   else if (c =? 47) || (c =? 95) then Some 63
   else None)%N.

(** The six-bit groups read by the decoder: characters outside the
    alphabet are skipped and [=] ends the input. *)
Fixpoint sextets (s : jsstring) : list N :=
  match s with
  | [] => []
  | c :: s' =>
      if (c =? 61)%N then []
      else match unbase64 c with
           | Some v => v :: sextets s'
           | None => sextets s'
           end
  end.

(** Four six-bit groups give three bytes; a last group of three or two
    gives two bytes or one. *)
Fixpoint sextets_to_bytes (l : list N) : list N :=
  match l with
  | a :: b :: c :: d :: rest =>
      N.lor (N.shiftl a 2) (N.shiftr b 4)
      :: N.lor (N.shiftl (N.land b 15) 4) (N.shiftr c 2)
      :: N.lor (N.shiftl (N.land c 3) 6) d
      :: sextets_to_bytes rest
  | [a; b; c] =>
      [N.lor (N.shiftl a 2) (N.shiftr b 4);
       N.lor (N.shiftl (N.land b 15) 4) (N.shiftr c 2)]
  | [a; b] => [N.lor (N.shiftl a 2) (N.shiftr b 4)]
  | _ => []
  end.

(** [Buffer.from(s, 'base64')] *)
Definition Buffer_from_base64 (s : jsstring) : list N :=
  sextets_to_bytes (sextets s).

(** [buf.toString('ascii')]: the high bit of every byte is cleared. *)
Definition toString_ascii (buf : list N) : jsstring :=
  List.map (fun b => N.land b 127) buf.

(** The encoding a client applies to [username:password] (RFC 4648, with
    padding). *)
Definition base64_char (v : N) : N :=
  (if v <? 26 then v + 65
   else if v <? 52 then v + 71
   else if v <? 62 then v - 4
   else if v =? 62 then 43 else 47)%N.

(** Three bytes give four characters; the last group is padded. *)
Fixpoint base64_encode (bytes : list N) : jsstring :=
  match bytes with
  | [] => []
  | [a] =>
      [base64_char (N.shiftr a 2); base64_char (N.shiftl (N.land a 3) 4);
       61%N; 61%N]
  | [a; b] =>
      [base64_char (N.shiftr a 2);
       base64_char (N.lor (N.shiftl (N.land a 3) 4) (N.shiftr b 4));
       base64_char (N.shiftl (N.land b 15) 2); 61%N]
  | a :: b :: c :: rest =>
      base64_char (N.shiftr a 2)
      :: base64_char (N.lor (N.shiftl (N.land a 3) 4) (N.shiftr b 4))
      :: base64_char (N.lor (N.shiftl (N.land b 15) 2) (N.shiftr c 6))
      :: base64_char (N.land c 63)
      :: base64_encode rest
  end.

(** [s.split(sep)] for a one-character separator: never empty. *)
Fixpoint split (sep : N) (s : jsstring) : list jsstring :=
  match s with
  | [] => [[]]
  | c :: s' =>
      if (c =? sep)%N then [] :: split sep s'
      else match split sep s' with
           | w :: ws => (c :: w) :: ws
           | [] => [[c]]
           end
  end.

(** [s.startsWith(p)] *)
Fixpoint startsWith (p s : jsstring) : bool :=
  match p, s with
  | [], _ => true
  | a :: p', b :: s' => (a =? b)%N && startsWith p' s'
  | _ :: _, [] => false
  end.

(** [process.env]: the two variables the server reads. *)
Record Env := {
  ADMIN_USER : option jsstring;
  ADMIN_PASS : option jsstring
}.

(** [process.env.X || fallback]: an unset or empty variable is falsy. *)
Definition env_or (v : option jsstring) (fallback : jsstring) : jsstring :=
  match v with
  | Some (c :: s) => c :: s
  | _ => fallback
  end.

(** [x !== y] where [x] may be [undefined] and [y] is a string. *)
Definition strict_ne (x : option jsstring) (y : jsstring) : bool :=
  match x with
  | Some s => negb (bool_decide (s = y))
  | None => true
  end.

(** The credential check that opens [GET /api/admin/inquiries]. *)
Definition check_credentials (env : Env) (authorization : option jsstring)
    : gate :=
  match authorization with
  | Some (c :: h) =>
      let authHeader := c :: h in
      if negb (startsWith (lit "Basic ") authHeader)
      then Reply (respond 401 (JError "Unauthorized"))
      else
        let base64Credentials := default [] (split 32 authHeader !! 1%nat) in
        let credentials :=
          toString_ascii (Buffer_from_base64 base64Credentials) in
        let parts := split 58 credentials in
        let username := parts !! 0%nat in
        let password := parts !! 1%nat in
        let adminUser := env_or (ADMIN_USER env) (lit "Mehul20020") in
        let adminPass := env_or (ADMIN_PASS env) (lit "Ninja2002@") in
        if strict_ne username adminUser || strict_ne password adminPass
        then Reply (respond 401 (JError "Invalid credentials"))
        else Next
  | _ => Reply (respond 401 (JError "Unauthorized"))
  end.

(** ** [GET /api/admin/inquiries] *)

Section Listing.
(** [new Date(s)] as milliseconds, [NaN] for an invalid date. *)
Variable Date_parse : jsstring -> jsnum.

(** [(a, b) => new Date(b.created_at) - new Date(a.created_at)]; a [NaN]
    difference orders nothing. *)
Definition by_created_desc (a b : Inquiry) : Z :=
  match Date_parse (created_at b), Date_parse (created_at a) with
  | Num tb, Num ta => tb - ta
  | _, _ => 0
  end.

Fixpoint insert_sorted (x : Inquiry) (l : list Inquiry) : list Inquiry :=
  match l with
  | [] => [x]
  | y :: l' =>
      if by_created_desc x y <=? 0 then x :: y :: l'
      else y :: insert_sorted x l'
  end.

(** [inquiries.sort(...)], a stable sort.  When every creation time
    parses ([valid_dates] below) the comparator is a consistent order
    and the result is the one of every stable sort, this insertion sort
    included.  With a creation time that does not parse the comparator
    returns [NaN] and the order is left to the engine: the definition
    is not meant for that case. *)
Definition sort_inquiries (l : list Inquiry) : list Inquiry :=
  foldr insert_sorted [] l.

Definition get_admin_inquiries (env : Env)
    (authorization : option jsstring) (d : Disk) : response * Disk :=
  match check_credentials env authorization with
  | Reply r => (r, d)
  | Next =>
      let data := readData d in
      (respond 200 (JInquiries (sort_inquiries (inquiries data))), d)
  end.
End Listing.

(** ** [PUT /api/admin/inquiries/:id] *)

(** Assignment to the fields of the first element that satisfies [p]:
    the object found by [find] is the one held by the array. *)
Fixpoint update_first (p : Inquiry -> bool) (f : Inquiry -> Inquiry)
    (l : list Inquiry) : list Inquiry :=
  match l with
  | [] => []
  | i :: l' => if p i then f i :: l' else i :: update_first p f l'
  end.

(** The three assignments of the handler. *)
Definition apply_update (new_status new_notes : jsval) (now : jsstring)
    (inquiry : Inquiry) : Inquiry :=
  {| id := id inquiry;
     name := name inquiry;
     phone := phone inquiry;
     email := email inquiry;
     travelers := travelers inquiry;
     destination := destination inquiry;
     travel_date := travel_date inquiry;
     traveler_type := traveler_type inquiry;
     message := message inquiry;
     status := js_or new_status (status inquiry);
     notes := match new_notes with
              | JUndefined => notes inquiry
              | _ => new_notes
              end;
     created_at := created_at inquiry;
     updated_at := now |}.

Definition put_admin_inquiry (now : jsstring) (id_param : jsstring)
    (body : gmap string jsval) (d : Disk) : response * Disk :=
  let new_status := field body "status" in
  let new_notes := field body "notes" in
  let data := readData d in
  let wanted i := num_eqb (id i) (parseInt (JStr id_param)) in
  match List.find wanted (inquiries data) with
  | Some inquiry =>
      let inquiry' := apply_update new_status new_notes now inquiry in
      let data' :=
        {| inquiries :=
             update_first wanted (apply_update new_status new_notes now)
               (inquiries data);
           lastId := lastId data |} in
      (respond 200 (JUpdated inquiry'), writeData data' d)
  | None => (respond 404 (JError "Inquiry not found"), d)
  end.

(** ** [DELETE /api/admin/inquiries/:id] *)

Definition delete_admin_inquiry (id_param : jsstring) (d : Disk)
    : response * Disk :=
  let data := readData d in
  let initialLength := length (inquiries data) in
  let kept :=
    List.filter (fun i => negb (num_eqb (id i) (parseInt (JStr id_param))))
      (inquiries data) in
  if (length kept <? initialLength)%nat
  then (respond 200 JDeleted,
        writeData {| inquiries := kept; lastId := lastId data |} d)
  else (respond 404 (JError "Inquiry not found"), d).

(** ** Sequences of store operations *)

(** The three mutating requests, with their inputs. *)
Inductive op :=
| Submit (now1 now2 : jsstring) (body : gmap string jsval)
| Update (now : jsstring) (id_param : jsstring) (body : gmap string jsval)
| Remove (id_param : jsstring).

(** One request against the data file. *)
Definition step (o : op) (d : Disk) : response * Disk :=
  match o with
  | Submit now1 now2 body => post_inquiry now1 now2 body d
  | Update now id_param body => put_admin_inquiry now id_param body d
  | Remove id_param => delete_admin_inquiry id_param d
  end.

(** Runs the operations in order; returns the responses and the file. *)
Fixpoint run (ops : list op) (d : Disk) : list response * Disk :=
  match ops with
  | [] => ([], d)
  | o :: ops' =>
      let '(r, d1) := step o d in
      let '(rs, d2) := run ops' d1 in
      (r :: rs, d2)
  end.

(** The id that a response hands out, if it is the answer to an accepted
    submission. *)
Definition assigned_id (r : response) : option Z :=
  match payload r with
  | JSubmitted k => Some k
  | _ => None
  end.

(** The ids handed out by a sequence of responses, in order. *)
Definition assigned_ids (rs : list response) : list Z :=
  omap assigned_id rs.

(** Documents reachable from the empty one. *)
Inductive reachable : Disk -> Prop :=
| reachable_init : reachable initDatabase
| reachable_step o d : reachable d -> reachable (step o d).2.

(** ** Notions taken from the specification *)

(** The phone pattern in the specification's words: an optional leading
    [+] followed by 10 to 15 digits. *)
Definition phone_pattern (s : jsstring) : Prop :=
  ∃ sign digits,
    s = sign ++ digits ∧ (sign = [] ∨ sign = lit "+") ∧
    Forall (λ c, 48 ≤ c ≤ 57)%N digits ∧ (10 ≤ length digits ≤ 15)%nat.

(** The four required fields of a submission. *)
Definition required_fields : list string :=
  ["name"; "phone"; "travelers"; "destination"]%string.

(** A stored value that is an integer. *)
Definition is_integer (v : jsval) : Prop := ∃ z, v = JNum z.

(** The inquiries of a document whose id is [n]. *)
Definition has_id (n : jsnum) (i : Inquiry) : Prop := n = Num (id i).

(** ** Auxiliary notions and sample data *)

(** A submission that passes validation. *)
Definition sample_body : gmap string jsval :=
  <["name" := JStr (lit "Asha")]>
    (<["phone" := JStr (lit "+91 98765 43210")]>
       (<["travelers" := JStr (lit "4")]>
          (<["destination" := JStr (lit "Goa")]> ∅))).

(** The same submission with another phone. *)
Definition body_with_phone (p : string) : gmap string jsval :=
  <["phone" := JStr (lit p)]> sample_body.

(** The data file after one accepted submission. *)
Definition disk_with_one : Disk :=
  (post_inquiry (lit "2024-05-01T10:00:00.000Z") (lit "2024-05-01T10:00:00.000Z")
     sample_body initDatabase).2.

(** An update that carries [notes: null] and no status. *)
Definition sample_update : gmap string jsval :=
  <["notes" := JNull]> ∅.

(** The ids present lie between 1 and [lastId]. *)
Definition ids_bounded (data : Document) : Prop :=
  0 ≤ lastId data ∧ Forall (λ i, 1 ≤ id i ≤ lastId data) (inquiries data).


(** Exhaustive checking of a property of bytes. *)
Definition allN (n : nat) (f : N → bool) : bool :=
  forallb (λ i, f (N.of_nat i)) (seq 0 n).

(** The bit-level facts about two bytes on which the base64 round trip
    rests: the six-bit groups are below 64 and reassemble the bytes. *)
Definition byte_pair_facts (x y : N) : bool :=
  ((N.shiftr x 2 <? 64)
   && (N.lor (N.shiftl (N.land x 3) 4) (N.shiftr y 4) <? 64)
   && (N.lor (N.shiftl (N.land x 15) 2) (N.shiftr y 6) <? 64)
   && (N.land y 63 <? 64)
   && (N.shiftl (N.land x 3) 4 <? 64)
   && (N.shiftl (N.land x 15) 2 <? 64)
   && (N.lor (N.shiftl (N.shiftr x 2) 2)
         (N.shiftr (N.lor (N.shiftl (N.land x 3) 4) (N.shiftr y 4)) 4) =? x)
   && (N.land (N.lor (N.shiftl (N.land x 3) 4) (N.shiftr y 4)) 15
       =? N.shiftr y 4)
   && (N.shiftr (N.lor (N.shiftl (N.land x 15) 2) (N.shiftr y 6)) 2
       =? N.land x 15)
   && (N.lor (N.shiftl (N.shiftr x 4) 4) (N.land x 15) =? x)
   && (N.lor (N.shiftl
                (N.land (N.lor (N.shiftl (N.land x 15) 2) (N.shiftr y 6)) 3) 6)
         (N.land y 63) =? y)
   && (N.lor (N.shiftl (N.shiftr x 2) 2)
         (N.shiftr (N.shiftl (N.land x 3) 4) 4) =? x)
   && (N.shiftr (N.shiftl (N.land x 15) 2) 2 =? N.land x 15))%N.

(** A character of the alphabet is neither [=] nor a space and decodes
    to the value it encodes. *)
Definition sextet_facts (v : N) : bool :=
  (negb (base64_char v =? 61) && negb (base64_char v =? 32)
   && bool_decide (unbase64 (base64_char v) = Some v))%N.

(** The header value of a client that presents [username] and
    [password]: the scheme, a space, and the base64 encoding of
    [username:password]. *)
Definition basic_header (username password : jsstring) : jsstring :=
  lit "Basic " ++ base64_encode (username ++ lit ":" ++ password).

(** The two configured secrets. *)
Definition adminUser (env : Env) : jsstring :=
  env_or (ADMIN_USER env) (lit "Mehul20020").

Definition adminPass (env : Env) : jsstring :=
  env_or (ADMIN_PASS env) (lit "Ninja2002@").

(** Seven-bit characters. *)
Definition ascii_only (s : jsstring) : Prop := Forall (λ c, (c < 128)%N) s.

(** The answer to a header whose credentials do not match. *)
Definition invalid_credentials : gate :=
  Reply (respond 401 (JError "Invalid credentials")).

(** The environment in which neither variable is set. *)
Definition no_env : Env := {| ADMIN_USER := None; ADMIN_PASS := None |}.

(** An environment whose password contains a colon. *)
Definition colon_env : Env :=
  {| ADMIN_USER := Some (lit "admin"); ADMIN_PASS := Some (lit "pa:ss") |}.

(** A submission whose [travelers] is a word. *)
Definition body_travelers_word : gmap string jsval :=
  <["travelers" := JStr (lit "two")]> sample_body.

(** ** Traces of the rate limiter *)

Section RateLimitTraces.
Context `{Countable K}.

(** Calls of several clients in order of arrival, each with its key and
    the reading of the clock. *)
Fixpoint limiter_trace (calls : list (K * Z))
    (rateLimitStore : gmap K (list Z)) : list gate * gmap K (list Z) :=
  match calls with
  | [] => ([], rateLimitStore)
  | (ip, now) :: later =>
      let '(g, st) := apiLimiter ip now rateLimitStore in
      let '(gs, st') := limiter_trace later st in
      (g :: gs, st')
  end.

(** The instants of the calls of one client. *)
Definition times_of (ip : K) (calls : list (K * Z)) : list Z :=
  snd <$> filter (λ c, c.1 = ip) calls.

(** The answers given to one client. *)
Definition gates_of (ip : K) (calls : list (K * Z)) (gates : list gate)
  : list gate :=
  snd <$> filter (λ cg, cg.1.1 = ip) (zip calls gates).
End RateLimitTraces.

(** The limiter in the specification's words, without pruning: a call is
    let through when fewer than 30 of the calls let through so far lie in
    the trailing 60,000 ms. *)
Fixpoint unpruned_calls (history : list Z) (times : list Z) : list gate :=
  match times with
  | [] => []
  | now :: later =>
      let inWindow := filter (λ time, now - time < 60000) history in
      if (30 <=? length inWindow)%nat
      then Reply too_many :: unpruned_calls history later
      else Next :: unpruned_calls (history ++ [now]) later
  end.

(** ** Sequences of submissions *)

(** A submission as it reaches the route: the reading of the clock by
    the limiter, the two readings by the handler, and the body. *)
Record Submission := {
  at_ms : Z;
  at_iso1 : jsstring;
  at_iso2 : jsstring;
  fields : gmap string jsval
}.

(** Successive submissions of one client through the route. *)
Fixpoint route_trace `{Countable K} (ip : K) (reqs : list Submission)
    (st : gmap K (list Z) * Disk)
  : list response * (gmap K (list Z) * Disk) :=
  match reqs with
  | [] => ([], st)
  | q :: later =>
      let '(r, st1) :=
        route_post_inquiry ip (at_ms q) (at_iso1 q) (at_iso2 q) (fields q) st in
      let '(rs, st2) := route_trace ip later st1 in
      (r :: rs, st2)
  end.

(** The handler run on the submissions that the limiter let through. *)
Fixpoint handle_passed (reqs : list Submission) (gates : list gate)
    (d : Disk) : Disk :=
  match reqs, gates with
  | q :: reqs', Next :: gates' =>
      handle_passed reqs' gates'
        (post_inquiry (at_iso1 q) (at_iso2 q) (fields q) d).2
  | _ :: reqs', Reply _ :: gates' => handle_passed reqs' gates' d
  | _, _ => d
  end.

(** A data file that is missing or does not parse. *)
Definition no_file (w : nat) : Disk := {| content := None; writes := w |}.

(** A data file that holds the empty document. *)
Definition empty_file (w : nat) : Disk :=
  {| content := Some empty_document; writes := w |}.

(** A submission whose phone is a JSON number. *)
Definition body_phone_number : gmap string jsval :=
  <["phone" := JNum 9876543210]> sample_body.

(** ** Shape of the stored inquiries *)


(** Two updates of the inquiry created by [sample_body]. *)
Definition update_contacted : gmap string jsval :=
  <["status" := JStr (lit "contacted")]> (<["notes" := JStr (lit "called")]> ∅).

(** ** Decimal numerals *)

(** The decimal numeral of an integer, as it appears in a URL. *)
Definition decimal (z : Z) : jsstring := ToString (JNum z).

(** The characters of a sequence of decimal digits. *)
Definition uint_chars (d : Decimal.uint) : jsstring :=
  lit (NilEmpty.string_of_uint d).

(** A character at which a decimal numeral ends: not a decimal digit,
    and not the [x] of a hexadecimal prefix. *)
Definition ends_numeral (c : N) : Prop :=
  ¬ (48 ≤ c ≤ 57)%N ∧ c ≠ 120%N ∧ c ≠ 88%N.

(** ** [GET /api/admin/stats] *)

(** The body of the answer. *)
Record Stats := {
  total : nat;
  new : nat;
  contacted : nat;
  booked : nat;
  thisWeek : nat
}.

(** [i => i.status === s] for a string literal [s]. *)
Definition status_is (s : string) (i : Inquiry) : bool :=
  bool_decide (status i = JStr (lit s)).

Section Statistics.
(** [new Date(s)] as milliseconds, [NaN] for an invalid date. *)
Variable Date_parse : jsstring -> jsnum.

(** [i => new Date(i.created_at) >= weekAgo]: a comparison with an
    invalid date is false. *)
Definition created_since (weekAgo : Z) (i : Inquiry) : bool :=
  match Date_parse (created_at i) with
  | Num t => weekAgo <=? t
  | NaN => false
  end.

(** The handler: [now] is the reading of the clock in milliseconds.  It
    reads the file and answers 200; it does not write. *)
Definition get_admin_stats (now : Z) (d : Disk) : Z * Stats * Disk :=
  let data := readData d in
  let weekAgo := now - 7 * 24 * 60 * 60 * 1000 in
  let stats :=
    {| total := length (inquiries data);
       new := length (List.filter (status_is "new") (inquiries data));
       contacted :=
         length (List.filter (status_is "contacted") (inquiries data));
       booked := length (List.filter (status_is "booked") (inquiries data));
       thisWeek :=
         length (List.filter (created_since weekAgo) (inquiries data)) |} in
  (200, stats, d).

(** The creation time of an inquiry in milliseconds, where it parses. *)
Definition created_ms (i : Inquiry) : Z :=
  match Date_parse (created_at i) with
  | Num t => t
  | NaN => 0
  end.

(** A creation time that parses and lies at most seven days before
    [now]. *)
Definition within_week (now : Z) (created : jsstring) : bool :=
  match Date_parse created with
  | Num t => now - 604800000 <=? t
  | NaN => false
  end.

(** All creation times parse. *)
Definition valid_dates (l : list Inquiry) : Prop :=
  Forall (λ i, Date_parse (created_at i) ≠ NaN) l.
End Statistics.

(** 1 for [true], 0 for [false]. *)
Definition count_if (b : bool) : nat := if b then 1%nat else 0%nat.

(** A stand-in for the parsing of dates in examples: the leading number
    of the string. *)
Definition leading_number (s : jsstring) : jsnum := parseInt_string s.

(** ** Further notions and sample data *)

(** The white space of the language, listed one code point at a time:
    tab, line feed, vertical tab, form feed, carriage return, space,
    no-break space, the Unicode space separators, the line and
    paragraph separators and the byte order mark.  It is compared with
    the class [\s] of the source, [is_space], below. *)
Definition js_white_space : list N :=
  [9; 10; 11; 12; 13; 32; 160; 5760; 8192; 8193; 8194; 8195; 8196; 8197;
   8198; 8199; 8200; 8201; 8202; 8232; 8233; 8239; 8287; 12288; 65279]%N.

(** The sample submission with a phone given by its code units. *)
Definition body_with_phone_units (p : jsstring) : gmap string jsval :=
  <["phone" := JStr p]> sample_body.

(** A phone written with a tab, a no-break space and an ideographic
    space. *)
Definition phone_with_white_space : jsstring :=
  lit "+91" ++ [9%N] ++ lit "98765" ++ [160%N; 12288%N] ++ lit "43210".

(** The integers that a double holds exactly. *)
Definition safe_integer (z : Z) : Prop :=
  - 9007199254740991 ≤ z ≤ 9007199254740991.

(** Three submissions, a deletion, a fourth submission and an update. *)
Definition sample_ops : list op :=
  [Submit (lit "2024-05-01T10:00:00.000Z") (lit "2024-05-01T10:00:00.000Z")
     sample_body;
   Submit (lit "2025-01-15T09:00:00.000Z") (lit "2025-01-15T09:00:00.000Z")
     sample_body;
   Submit (lit "2024-05-01T10:00:00.000Z") (lit "2024-05-01T10:00:00.001Z")
     sample_body;
   Remove (lit "2");
   Submit (lit "2025-01-15T09:00:00.000Z") (lit "2025-01-15T09:00:00.000Z")
     sample_body;
   Update (lit "2025-02-01T12:00:00.000Z") (lit "3") sample_update].

(** The data file after [sample_ops]: inquiries 1, 3 and 4, of which 1
    and 3 have the same creation time. *)
Definition disk_after_sample_ops : Disk := (run sample_ops initDatabase).2.

(** A submission whose [travelers] is a numeral followed by a word. *)
Definition body_travelers_text : gmap string jsval :=
  <["travelers" := JStr (decimal 4 ++ lit " adults")]> sample_body.

(** * Properties *)

(** ** Evaluation on literals *)

Example parseInt_examples :
  parseInt (JStr (lit "42")) = Num 42 /\
  parseInt (JStr (lit "  -7 adults")) = Num (-7) /\
  parseInt (JStr (lit "0x1F")) = Num 31 /\
  parseInt (JNum 12) = Num 12 /\
  parseInt (JNum (-3)) = Num (-3) /\
  parseInt (JBool true) = NaN /\
  parseInt (JStr (lit "abc")) = NaN.
Proof. repeat split; reflexivity. Qed.

Example phone_regex_examples :
  test_anchored phone_regex (lit "+919876543210") = true /\
  test_anchored phone_regex (lit "9876543210") = true /\
  test_anchored phone_regex (lit "123-456") = false /\
  test_anchored phone_regex (lit "987654321") = false /\
  test_anchored phone_regex (lit "1234567890123456") = false /\
  test_anchored phone_regex (lit "++9876543210") = false.
Proof. repeat split; reflexivity. Qed.

Example ToString_examples :
  ToString (JNum 0) = lit "0" /\ ToString (JNum (-15)) = lit "-15" /\
  ToString (JNum 9876543210) = lit "9876543210".
Proof. repeat split; reflexivity. Qed.


(** ** Values and required fields *)

Lemma num_eqb_has_id n i : num_eqb (id i) n = true ↔ has_id n i.
Proof.
  unfold has_id. destruct n as [|z]; simpl; [split; [done | congruence]|].
  rewrite Z.eqb_eq. split; [by intros -> | congruence].
Qed.

Lemma field_missing (body : gmap string jsval) k :
  body !! k = None → truthy (field body k) = false.
Proof. unfold field. by intros ->. Qed.

Lemma required_all_truthy (body : gmap string jsval) :
  (∀ k, k ∈ required_fields → truthy (field body k) = true) →
  negb (truthy (field body "name")) || negb (truthy (field body "phone"))
  || negb (truthy (field body "travelers"))
  || negb (truthy (field body "destination")) = false.
Proof.
  intros Hall.
  rewrite !Hall; [done | | | |]; unfold required_fields; set_solver.
Qed.

(** C7. A submission in which one of [name], [phone], [travelers],
    [destination] is missing or falsy is answered 400 with
    "Missing required fields", and the data file is left as it was. *)
Theorem post_inquiry_missing_required now1 now2 (body : gmap string jsval) d k :
  k ∈ required_fields →
  truthy (field body k) = false →
  post_inquiry now1 now2 body d
  = (respond 400 (JError "Missing required fields"), d).
Proof.
  intros Hk Hfalsy. unfold post_inquiry.
  assert (Hor : negb (truthy (field body "name"))
                || negb (truthy (field body "phone"))
                || negb (truthy (field body "travelers"))
                || negb (truthy (field body "destination")) = true).
  { unfold required_fields in Hk.
    repeat (apply elem_of_cons in Hk as [-> | Hk]);
      [rewrite Hfalsy .. |]; simpl; rewrite ?orb_true_r; try done.
    by apply elem_of_nil in Hk. }
  by rewrite Hor.
Qed.

Lemma post_inquiry_missing_required_witness :
  post_inquiry (lit "2024-01-01T00:00:00.000Z") (lit "2024-01-01T00:00:00.000Z")
    (<["name" := JStr (lit "Asha")]> (<["travelers" := JNum 0]> ∅))
    initDatabase
  = (respond 400 (JError "Missing required fields"), initDatabase).
Proof.
  apply (post_inquiry_missing_required _ _ _ _ "travelers").
  - unfold required_fields. set_solver.
  - reflexivity.
Defined.

(** ** The phone pattern *)

Lemma at_end_nil rest : at_end rest = true ↔ rest = [].
Proof. by destruct rest. Qed.

Lemma is_digit_range c : is_digit c = true ↔ (48 ≤ c ≤ 57)%N.
Proof. unfold is_digit. rewrite andb_true_iff, !N.leb_le. done. Qed.

(** Bounded repetition of a character class reads between [lo] and [hi]
    characters of the class and continues with the rest. *)
Lemma repeat_class_iff p lo hi s k :
  repeat_match (rmatch (RClass p)) lo hi s k = true ↔
  ∃ n, (lo ≤ n ≤ hi)%nat ∧ (n ≤ length s)%nat ∧
       forallb p (take n s) = true ∧ k (drop n s) = true.
Proof.
  revert lo s. induction hi as [|hi IH]; intros lo s; simpl.
  - destruct lo as [|lo].
    + split.
      * intros Hk. exists 0%nat. repeat split; simpl; try lia; done.
      * intros (n & Hn & _ & _ & Hk). assert (n = 0%nat) as -> by lia. done.
    + split; [done | intros (n & Hn & _); lia].
  - rewrite orb_true_iff. split.
    + intros [Hmore | Hstop].
      * destruct s as [|c s]; [done |].
        apply andb_true_iff in Hmore as [Hc Hrest].
        apply IH in Hrest as (n & Hn & Hlen & Hall & Hk).
        exists (S n). simpl. rewrite Hc, Hall. repeat split; try lia; done.
      * destruct lo as [|lo]; [| done].
        exists 0%nat. repeat split; simpl; try lia; done.
    + intros (n & Hn & Hlen & Hall & Hk).
      destruct n as [|n].
      * right. destruct lo as [|lo]; [done | lia].
      * left. destruct s as [|c s]; simpl in *; [lia |].
        apply andb_true_iff in Hall as [Hc Hall]. rewrite Hc. simpl.
        apply IH. exists n. repeat split; try lia; done.
Qed.

Lemma digits_10_15_iff s :
  repeat_match (rmatch (RClass is_digit)) 10 15 s at_end = true ↔
  Forall (λ c, 48 ≤ c ≤ 57)%N s ∧ (10 ≤ length s ≤ 15)%nat.
Proof.
  rewrite repeat_class_iff. split.
  - intros (n & Hn & Hlen & Hall & Hend).
    apply at_end_nil in Hend.
    assert (n = length s) as ->.
    { apply (f_equal length) in Hend. rewrite length_drop in Hend.
      simpl in Hend. lia. }
    rewrite firstn_all in Hall. split; [| lia].
    apply Forall_forall. intros c Hc. apply is_digit_range.
    rewrite forallb_forall in Hall. apply Hall. by apply list_elem_of_In.
  - intros [Hall Hlen]. exists (length s).
    rewrite firstn_all, drop_all. repeat split; try lia.
    apply forallb_forall. intros c Hc. apply is_digit_range.
    rewrite Forall_forall in Hall. apply Hall. by apply list_elem_of_In.
Qed.

(** The regular expression of the source accepts exactly the strings of
    the specification's pattern. *)
Lemma phone_regex_pattern s :
  test_anchored phone_regex s = true ↔ phone_pattern s.
Proof.
  unfold test_anchored, phone_regex. simpl rmatch.
  rewrite orb_true_iff. split.
  - intros [Hplus | Hplain].
    + destruct s as [|c s]; [done |].
      apply andb_true_iff in Hplus as [Hc Hds].
      apply N.eqb_eq in Hc as ->. apply digits_10_15_iff in Hds as [Hall Hlen].
      exists (lit "+"), s. auto.
    + apply digits_10_15_iff in Hplain as [Hall Hlen].
      exists [], s. auto.
  - intros (sign & ds & -> & [-> | ->] & Hall & Hlen).
    + right. by apply digits_10_15_iff.
    + left. simpl. by apply digits_10_15_iff.
Qed.

Lemma strip_spaces_elem c s :
  c ∈ strip_spaces s ↔ c ∈ s ∧ is_space c = false.
Proof.
  unfold strip_spaces. rewrite !list_elem_of_In, filter_In, negb_true_iff. done.
Qed.

(** ** Submissions *)

(** A submission with the four required fields and a string phone is
    decided by the phone pattern alone. *)
Lemma post_inquiry_decided now1 now2 (body : gmap string jsval) d p :
  field body "phone" = JStr p →
  (∀ k, k ∈ required_fields → truthy (field body k) = true) →
  post_inquiry now1 now2 body d =
  if test_anchored phone_regex (strip_spaces p)
  then
    let inquiry :=
      {| id := lastId (readData d) + 1;
         name := field body "name";
         phone := strip_spaces p;
         email := js_or (field body "email") (JStr []);
         travelers := JSON_number (parseInt (field body "travelers"));
         destination := field body "destination";
         travel_date := js_or (field body "travelDate") JNull;
         traveler_type := js_or (field body "travelerType") JNull;
         message := js_or (field body "message") (JStr []);
         status := JStr (lit "new");
         notes := JNull;
         created_at := now1;
         updated_at := now2 |} in
    (respond 201 (JSubmitted (lastId (readData d) + 1)),
     writeData {| inquiries := inquiries (readData d) ++ [inquiry];
                  lastId := lastId (readData d) + 1 |} d)
  else (respond 400 (JError "Invalid phone number"), d).
Proof.
  intros Hphone Hall. unfold post_inquiry.
  rewrite (required_all_truthy body Hall), Hphone.
  by destruct (test_anchored phone_regex (strip_spaces p)).
Qed.

(** Every response with code 201 comes from the writing branch. *)
Lemma post_inquiry_accepted now1 now2 (body : gmap string jsval) d r d' :
  post_inquiry now1 now2 body d = (r, d') →
  code r = 201 →
  ∃ inquiry,
    id inquiry = lastId (readData d) + 1 ∧
    r = respond 201 (JSubmitted (lastId (readData d) + 1)) ∧
    d' = writeData {| inquiries := inquiries (readData d) ++ [inquiry];
                      lastId := lastId (readData d) + 1 |} d.
Proof.
  unfold post_inquiry. intros Hrun Hcode.
  destruct (negb (truthy (field body "name")) || _ || _ || _);
    [by inversion Hrun; subst |].
  destruct (field body "phone") as [| | | |p];
    try (by inversion Hrun; subst).
  destruct (negb (test_anchored phone_regex (strip_spaces p)));
    [by inversion Hrun; subst |].
  inversion Hrun; subst. eexists. split; [| split]; [| done..]. done.
Qed.

Lemma apiLimiter_cases `{Countable K} (ip : K) now (rl : gmap K (list Z)) :
  apiLimiter ip now rl
  = (Reply (respond 429 (JError "Too many requests, please try again later.")),
     rl)
  ∨ ∃ rl', apiLimiter ip now rl = (Next, rl').
Proof. unfold apiLimiter. destruct (30 <=? _)%nat; eauto. Qed.

(** C1. When [POST /api/inquiry] accepts a submission (201), the id in
    the response is the previous [lastId] plus one, the document written
    has that id as its [lastId], and its inquiries are the previous ones
    followed by the new inquiry, which bears that id. *)
Theorem submit_assigns_next_id `{Countable K} (ip : K) now now1 now2
    (body : gmap string jsval) rl d r rl' d' :
  route_post_inquiry ip now now1 now2 body (rl, d) = (r, (rl', d')) →
  code r = 201 →
  ∃ inquiry,
    payload r = JSubmitted (lastId (readData d) + 1) ∧
    id inquiry = lastId (readData d) + 1 ∧
    lastId (readData d') = lastId (readData d) + 1 ∧
    inquiries (readData d') = inquiries (readData d) ++ [inquiry] ∧
    writes d' = S (writes d).
Proof.
  unfold route_post_inquiry. cbn [fst snd].
  destruct (apiLimiter_cases ip now rl) as [-> | [rl0 ->]];
    intros Hrun Hcode.
  - inversion Hrun; subst. done.
  - destruct (post_inquiry now1 now2 body d) as [r0 d0] eqn:Hpost.
    inversion Hrun; subst.
    destruct (post_inquiry_accepted _ _ _ _ _ _ Hpost Hcode)
      as (inquiry & Hid & -> & ->).
    exists inquiry. done.
Qed.

Lemma submit_assigns_next_id_witness :
  let out :=
    route_post_inquiry "203.0.113.7"%string 1700000000000
      (lit "2023-11-14T22:13:20.000Z") (lit "2023-11-14T22:13:20.001Z")
      sample_body (∅, initDatabase) in
  ∃ inquiry,
    payload out.1 = JSubmitted (lastId (readData initDatabase) + 1) ∧
    id inquiry = lastId (readData initDatabase) + 1 ∧
    lastId (readData out.2.2) = lastId (readData initDatabase) + 1 ∧
    inquiries (readData out.2.2)
    = inquiries (readData initDatabase) ++ [inquiry] ∧
    writes out.2.2 = S (writes initDatabase).
Proof.
  intros out.
  apply (submit_assigns_next_id "203.0.113.7"%string 1700000000000
           (lit "2023-11-14T22:13:20.000Z") (lit "2023-11-14T22:13:20.001Z")
           sample_body ∅ initDatabase out.1 out.2.1 out.2.2).
  - vm_compute. reflexivity.
  - vm_compute. reflexivity.
Defined.

(** The class of the source is the set of white space code points. *)
Lemma is_space_white_space c : is_space c = true ↔ c ∈ js_white_space.
Proof.
  unfold is_space, js_white_space.
  rewrite !orb_true_iff, !andb_true_iff, !N.leb_le, !N.eqb_eq.
  rewrite !elem_of_cons, elem_of_nil. lia.
Qed.

(** Stripping only removes characters: what is left is in the order of
    the input. *)
Lemma strip_spaces_sublist s : sublist (strip_spaces s) s.
Proof.
  unfold strip_spaces. induction s as [|c s IH]; simpl; [constructor |].
  destruct (negb (is_space c)); by constructor.
Qed.


(** C6 (as the code has it). For a submission whose required fields are
    all present: a phone that is a string is first stripped of all white
    space, the submission is accepted exactly when the stripped string
    is an optional [+] followed by 10 to 15 digits, the stripped string
    is what is stored, and otherwise the answer is 400 "Invalid phone
    number" and nothing is written.  A phone that is not a string is
    neither stripped nor tested: the answer is 500 "Failed to submit
    inquiry" and nothing is written. *)
Theorem post_inquiry_phone_validation now1 now2 (body : gmap string jsval) d :
  (∀ k, k ∈ required_fields → truthy (field body k) = true) →
  (∀ p, field body "phone" = JStr p →
     (sublist (strip_spaces p) p ∧
      ∀ c, c ∈ strip_spaces p ↔ c ∈ p ∧ c ∉ js_white_space) ∧
     (code (post_inquiry now1 now2 body d).1 = 201
      ↔ phone_pattern (strip_spaces p)) ∧
     (phone_pattern (strip_spaces p) →
      ∃ inquiry,
        phone inquiry = strip_spaces p ∧
        post_inquiry now1 now2 body d
        = (respond 201 (JSubmitted (lastId (readData d) + 1)),
           writeData {| inquiries := inquiries (readData d) ++ [inquiry];
                        lastId := lastId (readData d) + 1 |} d)) ∧
     (¬ phone_pattern (strip_spaces p) →
      post_inquiry now1 now2 body d
      = (respond 400 (JError "Invalid phone number"), d))) ∧
  ((∀ p, field body "phone" ≠ JStr p) →
   post_inquiry now1 now2 body d
   = (respond 500 (JError "Failed to submit inquiry"), d)).
Proof.
  intros Hall. split.
  - intros p Hphone.
    rewrite (post_inquiry_decided now1 now2 body d p Hphone Hall).
    rewrite <- phone_regex_pattern.
    split.
    { split; [apply strip_spaces_sublist |]. intros c.
      rewrite strip_spaces_elem, <- is_space_white_space.
      by rewrite not_true_iff_false. }
    destruct (test_anchored phone_regex (strip_spaces p)); simpl.
    + split; [done |]. split; [| done]. intros _. eexists. split; [| done]. done.
    + split; [split; [lia | done] |]. split; done.
  - intros Hphone. unfold post_inquiry.
    rewrite (required_all_truthy body Hall).
    destruct (field body "phone") as [| | | |p]; try done.
    by destruct (Hphone p).
Qed.

Ltac solve_required :=
  let k := fresh "k" in
  let Hk := fresh "Hk" in
  intros k Hk; unfold required_fields in Hk;
  repeat (apply elem_of_cons in Hk as [-> | Hk]);
  [reflexivity .. | by apply elem_of_nil in Hk].

Lemma post_inquiry_phone_validation_witness :
  (∃ inquiry,
     phone inquiry = lit "+919876543210" ∧
     post_inquiry (lit "2024-05-01T10:00:00.000Z")
       (lit "2024-05-01T10:00:00.000Z")
       (body_with_phone_units phone_with_white_space) initDatabase
     = (respond 201 (JSubmitted (lastId (readData initDatabase) + 1)),
        writeData
          {| inquiries := inquiries (readData initDatabase) ++ [inquiry];
             lastId := lastId (readData initDatabase) + 1 |} initDatabase)) ∧
  (∃ inquiry,
     phone inquiry = strip_spaces (lit "+919876543210") ∧
     post_inquiry (lit "2024-05-01T10:00:00.000Z")
       (lit "2024-05-01T10:00:00.000Z")
       (body_with_phone "+919876543210") initDatabase
     = (respond 201 (JSubmitted (lastId (readData initDatabase) + 1)),
        writeData
          {| inquiries := inquiries (readData initDatabase) ++ [inquiry];
             lastId := lastId (readData initDatabase) + 1 |} initDatabase)) ∧
  post_inquiry (lit "2024-05-01T10:00:00.000Z") (lit "2024-05-01T10:00:00.000Z")
    (body_with_phone "123-456") initDatabase
  = (respond 400 (JError "Invalid phone number"), initDatabase) ∧
  post_inquiry (lit "2024-05-01T10:00:00.000Z") (lit "2024-05-01T10:00:00.000Z")
    body_phone_number initDatabase
  = (respond 500 (JError "Failed to submit inquiry"), initDatabase).
Proof.
  split; [| split; [| split]].
  - destruct (post_inquiry_phone_validation
                (lit "2024-05-01T10:00:00.000Z") (lit "2024-05-01T10:00:00.000Z")
                (body_with_phone_units phone_with_white_space) initDatabase
                ltac:(solve_required)) as [Hstring _].
    destruct (Hstring phone_with_white_space eq_refl)
      as (_ & _ & Haccept & _).
    change (lit "+919876543210") with (strip_spaces phone_with_white_space).
    apply Haccept, phone_regex_pattern. reflexivity.
  - destruct (post_inquiry_phone_validation
                (lit "2024-05-01T10:00:00.000Z") (lit "2024-05-01T10:00:00.000Z")
                (body_with_phone "+919876543210") initDatabase
                ltac:(solve_required)) as [Hstring _].
    destruct (Hstring (lit "+919876543210") eq_refl) as (_ & _ & Haccept & _).
    apply Haccept, phone_regex_pattern. reflexivity.
  - destruct (post_inquiry_phone_validation
                (lit "2024-05-01T10:00:00.000Z") (lit "2024-05-01T10:00:00.000Z")
                (body_with_phone "123-456") initDatabase
                ltac:(solve_required)) as [Hstring _].
    destruct (Hstring (lit "123-456") eq_refl) as (_ & _ & _ & Hreject).
    apply Hreject. rewrite <- phone_regex_pattern. vm_compute. discriminate.
  - destruct (post_inquiry_phone_validation
                (lit "2024-05-01T10:00:00.000Z") (lit "2024-05-01T10:00:00.000Z")
                body_phone_number initDatabase
                ltac:(solve_required)) as [_ Hother].
    apply Hother. intros p. vm_compute. discriminate.
Defined.

(** ** Lists of inquiries *)

Lemma filter_length_lt {A} (f : A → bool) (l : list A) :
  (length (List.filter f l) < length l)%nat ↔ ∃ x, x ∈ l ∧ f x = false.
Proof.
  induction l as [|a l IH]; simpl.
  - split; [lia | intros (x & Hx & _); by apply elem_of_nil in Hx].
  - pose proof (filter_length_le f l) as Hle.
    destruct (f a) eqn:Hfa; simpl.
    + rewrite <- Nat.succ_lt_mono, IH. split.
      * intros (x & Hx & Hfx). exists x. split; [by right | done].
      * intros (x & Hx & Hfx). apply elem_of_cons in Hx as [-> | Hx];
          [congruence | eauto].
    + split; [| lia]. intros _. exists a. split; [by left | done].
Qed.


Lemma filter_elem {A} (f : A → bool) (l : list A) x :
  x ∈ List.filter f l ↔ x ∈ l ∧ f x = true.
Proof. by rewrite !list_elem_of_In, filter_In. Qed.

(** [find] returns the first element that satisfies the test, and
    [update_first] rewrites that very element in place. *)
Lemma find_update_first p f (l : list Inquiry) :
  match List.find p l with
  | Some x =>
      ∃ before after,
        l = before ++ x :: after ∧ p x = true ∧
        Forall (λ y, p y = false) before ∧
        update_first p f l = before ++ f x :: after
  | None => Forall (λ y, p y = false) l
  end.
Proof.
  induction l as [|a l IH]; simpl; [constructor |].
  destruct (p a) eqn:Hpa.
  - exists [], l. repeat split; done.
  - destruct (List.find p l) as [x|].
    + destruct IH as (before & after & -> & Hpx & Hbefore & ->).
      exists (a :: before), after. repeat split; try done.
      by constructor.
    + by constructor.
Qed.

#[global] Instance has_id_dec n i : Decision (has_id n i).
Proof. unfold has_id. apply _. Defined.


(** ** Deleting *)

Lemma delete_admin_inquiry_found id_param d :
  (∃ i, i ∈ inquiries (readData d) ∧ has_id (parseInt (JStr id_param)) i) →
  delete_admin_inquiry id_param d
  = (respond 200 JDeleted,
     writeData
       {| inquiries :=
            List.filter
              (fun i => negb (num_eqb (id i) (parseInt (JStr id_param))))
              (inquiries (readData d));
          lastId := lastId (readData d) |} d).
Proof.
  intros (i & Hi & Hid). unfold delete_admin_inquiry.
  assert (Hlt : (length (List.filter
                   (fun i => negb (num_eqb (id i) (parseInt (JStr id_param))))
                   (inquiries (readData d)))
                 < length (inquiries (readData d)))%nat).
  { apply filter_length_lt. exists i. split; [done |].
    apply negb_false_iff, num_eqb_has_id. done. }
  apply Nat.ltb_lt in Hlt. by rewrite Hlt.
Qed.

Lemma delete_admin_inquiry_absent id_param d :
  ¬ (∃ i, i ∈ inquiries (readData d) ∧ has_id (parseInt (JStr id_param)) i) →
  delete_admin_inquiry id_param d
  = (respond 404 (JError "Inquiry not found"), d).
Proof.
  intros Hnone. unfold delete_admin_inquiry.
  destruct (_ <? _)%nat eqn:Hlt; [| done].
  apply Nat.ltb_lt, filter_length_lt in Hlt as (i & Hi & Hid).
  destruct Hnone. exists i. split; [done |].
  apply num_eqb_has_id. by apply negb_false_iff.
Qed.



(** ** Updating *)

Lemma apply_update_status_absent (body : gmap string jsval) now i :
  body !! "status" = None →
  status (apply_update (field body "status") (field body "notes") now i)
  = status i.
Proof. intros Hnone. unfold field. rewrite Hnone. done. Qed.

Lemma apply_update_notes_present (body : gmap string jsval) now i v :
  body !! "notes" = Some v → v ≠ JUndefined →
  notes (apply_update (field body "status") (field body "notes") now i) = v.
Proof.
  intros Hsome Hdef. unfold field. rewrite Hsome. simpl. by destruct v.
Qed.

Lemma apply_update_notes_absent (body : gmap string jsval) now i :
  body !! "notes" = None →
  notes (apply_update (field body "status") (field body "notes") now i)
  = notes i.
Proof. intros Hnone. unfold field. rewrite Hnone. done. Qed.

(** C2. [PUT /api/admin/inquiries/:id].  When no stored inquiry has the
    requested id the answer is 404 "Inquiry not found" and nothing is
    written.  Otherwise the first inquiry with that id is rewritten in
    place and the document is written: its status is the supplied one
    when that is truthy and the stored one otherwise, in particular when
    no status is supplied; its notes are the supplied value whenever the
    [notes] key is present, [null] and the empty string included, and
    the stored ones when it is absent; its [updated_at] is the current
    time; every other field is as before. *)
Theorem put_admin_inquiry_updates now id_param (body : gmap string jsval) d :
  let n := parseInt (JStr id_param) in
  let data := readData d in
  let out := put_admin_inquiry now id_param body d in
  (¬ (∃ i, i ∈ inquiries data ∧ has_id n i) →
   out = (respond 404 (JError "Inquiry not found"), d)) ∧
  ((∃ i, i ∈ inquiries data ∧ has_id n i) →
   ∃ before old after new,
     inquiries data = before ++ old :: after ∧
     has_id n old ∧ Forall (λ i, ¬ has_id n i) before ∧
     out = (respond 200 (JUpdated new),
            writeData {| inquiries := before ++ new :: after;
                         lastId := lastId data |} d) ∧
     status new = (if truthy (field body "status")
                   then field body "status" else status old) ∧
     (body !! "status" = None → status new = status old) ∧
     (∀ v, body !! "notes" = Some v → v ≠ JUndefined → notes new = v) ∧
     (body !! "notes" = None → notes new = notes old) ∧
     updated_at new = now ∧
     id new = id old ∧ name new = name old ∧ phone new = phone old ∧
     email new = email old ∧ travelers new = travelers old ∧
     destination new = destination old ∧
     travel_date new = travel_date old ∧
     traveler_type new = traveler_type old ∧
     message new = message old ∧ created_at new = created_at old).
Proof.
  intros n data out. subst out. unfold put_admin_inquiry.
  fold data. fold n.
  pose proof (find_update_first (λ i, num_eqb (id i) n)
                (apply_update (field body "status") (field body "notes") now)
                (inquiries data)) as Hfind.
  destruct (List.find (λ i, num_eqb (id i) n) (inquiries data)) as [old|].
  - destruct Hfind as (before & after & Hsplit & Hold & Hbefore & Hupd).
    split.
    + intros Hnone. destruct Hnone. exists old. split.
      * rewrite Hsplit. apply elem_of_app. right. by left.
      * by apply num_eqb_has_id.
    + intros _. exists before, old, after.
      exists (apply_update (field body "status") (field body "notes") now old).
      split; [done |]. split; [by apply num_eqb_has_id |].
      split.
      { eapply Forall_impl; [exact Hbefore |]. intros i Hi Hid.
        apply num_eqb_has_id in Hid. congruence. }
      split; [by rewrite Hupd |].
      split; [done |].
      split; [apply apply_update_status_absent |].
      split; [intros v; apply apply_update_notes_present |].
      split; [apply apply_update_notes_absent |].
      repeat split.
  - split; [done |].
    intros (i & Hi & Hid). rewrite Forall_forall in Hfind.
    apply num_eqb_has_id in Hid. rewrite (Hfind i Hi) in Hid. done.
Qed.

Lemma put_admin_inquiry_updates_witness :
  put_admin_inquiry (lit "2024-05-02T08:30:00.000Z") (lit "7") sample_update
    disk_with_one
  = (respond 404 (JError "Inquiry not found"), disk_with_one) ∧
  ∃ before old after new,
    inquiries (readData disk_with_one) = before ++ old :: after ∧
    has_id (parseInt (JStr (lit "1"))) old ∧
    Forall (λ i, ¬ has_id (parseInt (JStr (lit "1"))) i) before ∧
    put_admin_inquiry (lit "2024-05-02T08:30:00.000Z") (lit "1") sample_update
      disk_with_one
    = (respond 200 (JUpdated new),
       writeData {| inquiries := before ++ new :: after;
                    lastId := lastId (readData disk_with_one) |}
         disk_with_one) ∧
    status new = (if truthy (field sample_update "status")
                  then field sample_update "status" else status old) ∧
    (sample_update !! "status" = None → status new = status old) ∧
    (∀ v, sample_update !! "notes" = Some v → v ≠ JUndefined → notes new = v) ∧
    (sample_update !! "notes" = None → notes new = notes old) ∧
    updated_at new = lit "2024-05-02T08:30:00.000Z" ∧
    id new = id old ∧ name new = name old ∧ phone new = phone old ∧
    email new = email old ∧ travelers new = travelers old ∧
    destination new = destination old ∧
    travel_date new = travel_date old ∧
    traveler_type new = traveler_type old ∧
    message new = message old ∧ created_at new = created_at old.
Proof.
  split.
  - apply (proj1 (put_admin_inquiry_updates (lit "2024-05-02T08:30:00.000Z")
                    (lit "7") sample_update disk_with_one)).
    intros (i & Hi & Hid). vm_compute in Hi.
    apply list_elem_of_singleton in Hi as ->. vm_compute in Hid. discriminate.
  - apply (proj2 (put_admin_inquiry_updates (lit "2024-05-02T08:30:00.000Z")
                    (lit "1") sample_update disk_with_one)).
    eexists. split.
    + vm_compute. left.
    + reflexivity.
Defined.

(** ** The id counter *)

Lemma post_inquiry_cases now1 now2 (body : gmap string jsval) d :
  (∃ c m, post_inquiry now1 now2 body d = (respond c (JError m), d)) ∨
  (∃ inquiry,
     id inquiry = lastId (readData d) + 1 ∧
     post_inquiry now1 now2 body d
     = (respond 201 (JSubmitted (lastId (readData d) + 1)),
        writeData {| inquiries := inquiries (readData d) ++ [inquiry];
                     lastId := lastId (readData d) + 1 |} d)).
Proof.
  unfold post_inquiry.
  destruct (negb (truthy (field body "name")) || _ || _ || _); [eauto |].
  destruct (field body "phone") as [| | | |p]; eauto.
  destruct (negb (test_anchored phone_regex (strip_spaces p))); [eauto |].
  right. eexists. split; [| reflexivity]. done.
Qed.

Lemma update_first_ids p f (l : list Inquiry) :
  (∀ i, id (f i) = id i) → id <$> update_first p f l = id <$> l.
Proof.
  intros Hf. induction l as [|a l IH]; cbn [update_first]; [done |].
  destruct (p a); rewrite !fmap_cons; [by rewrite Hf | by rewrite IH].
Qed.

Lemma Forall_filter_keep {A} (P : A → Prop) (f : A → bool) (l : list A) :
  Forall P l → Forall P (List.filter f l).
Proof.
  rewrite !Forall_forall. intros Hall x Hx.
  apply filter_elem in Hx as [Hx _]. by apply Hall.
Qed.

Lemma ids_bounded_fmap data data' :
  id <$> inquiries data' = id <$> inquiries data →
  lastId data' = lastId data →
  ids_bounded data → ids_bounded data'.
Proof.
  unfold ids_bounded. intros Hids -> [Hpos Hall]. split; [done |].
  apply (Forall_fmap id (λ k, 1 ≤ k ≤ lastId data)).
  rewrite Hids. by apply Forall_fmap.
Qed.

(** One operation keeps the bound and either hands out [lastId + 1] and
    moves the counter there, or hands out nothing and leaves it. *)
Lemma step_counter o d :
  ids_bounded (readData d) →
  ids_bounded (readData (step o d).2) ∧
  ((assigned_id (step o d).1 = Some (lastId (readData d) + 1) ∧
    lastId (readData (step o d).2) = lastId (readData d) + 1) ∨
   (assigned_id (step o d).1 = None ∧
    lastId (readData (step o d).2) = lastId (readData d))).
Proof.
  intros Hinv. destruct o as [now1 now2 body | now id_param body | id_param];
    simpl.
  - destruct (post_inquiry_cases now1 now2 body d)
      as [(c & m & ->) | (inquiry & Hid & ->)]; simpl.
    + split; [done | by right].
    + split; [| by left]. destruct Hinv as [Hpos Hall].
      split; simpl; [lia |]. apply Forall_app. split.
      * eapply Forall_impl; [exact Hall |]. simpl. intros; lia.
      * apply Forall_singleton. lia.
  - unfold put_admin_inquiry.
    destruct (List.find _ _); simpl; [| split; [done | by right]].
    split; [| by right].
    eapply ids_bounded_fmap; [| | exact Hinv]; simpl; [| done].
    by apply update_first_ids.
  - unfold delete_admin_inquiry.
    destruct (_ <? _)%nat; simpl; [| split; [done | by right]].
    split; [| by right]. destruct Hinv as [Hpos Hall].
    split; simpl; [done |].
    by apply Forall_filter_keep.
Qed.

Lemma run_counter ops d :
  ids_bounded (readData d) →
  ids_bounded (readData (run ops d).2) ∧
  lastId (readData d) ≤ lastId (readData (run ops d).2) ∧
  assigned_ids (run ops d).1
  = seqZ (lastId (readData d) + 1)
      (lastId (readData (run ops d).2) - lastId (readData d)).
Proof.
  revert d. induction ops as [|o ops IH]; intros d Hinv; simpl.
  - split; [done |]. split; [lia |]. by rewrite Z.sub_diag.
  - destruct (step_counter o d Hinv) as [Hinv1 Hstep].
    destruct (step o d) as [r d1]. simpl in *.
    destruct (IH d1 Hinv1) as (Hinv2 & Hle & Hids).
    destruct (run ops d1) as [rs d2]. simpl in *.
    split; [done |]. unfold assigned_ids in *. simpl.
    destruct Hstep as [[-> Hlast] | [-> Hlast]]; rewrite Hlast in *.
    + split; [lia |]. rewrite Hids.
      rewrite (seqZ_cons (lastId (readData d) + 1)) by lia.
      f_equal. f_equal; lia.
    + split; [lia |]. done.
Qed.

(** C5. In every document reachable from the empty one by submissions,
    updates and deletions, every id present is at most [lastId]; and in
    every such sequence of operations the ids handed out are 1, 2, ...,
    [lastId] in this order, so that no id is handed out twice, whatever
    was deleted in between. *)
Theorem lastId_bounds_ids_no_reuse :
  (∀ d, reachable d →
        Forall (λ i, id i ≤ lastId (readData d)) (inquiries (readData d))) ∧
  (∀ ops,
     assigned_ids (run ops initDatabase).1
     = seqZ 1 (lastId (readData (run ops initDatabase).2)) ∧
     NoDup (assigned_ids (run ops initDatabase).1)).
Proof.
  assert (Hinit : ids_bounded (readData initDatabase)).
  { split; simpl; [done | constructor]. }
  split.
  - intros d Hreach.
    assert (Hinv : ids_bounded (readData d)).
    { induction Hreach as [|o d Hreach IH]; [done |].
      by apply step_counter. }
    destruct Hinv as [_ Hall].
    eapply Forall_impl; [exact Hall |]. simpl. intros; lia.
  - intros ops.
    destruct (run_counter ops initDatabase Hinit) as (_ & _ & Hids).
    simpl in Hids. rewrite Z.sub_0_r in Hids.
    rewrite Hids. split; [done | apply NoDup_seqZ].
Qed.

(** Every run of requests keeps the data file reachable. *)
Lemma reachable_run ops : ∀ d, reachable d → reachable (run ops d).2.
Proof.
  induction ops as [|o ops IH]; intros d Hreach; simpl; [done |].
  specialize (IH (step o d).2 (reachable_step o d Hreach)).
  destruct (step o d) as [r d1]. simpl in *.
  by destruct (run ops d1) as [rs d2].
Qed.

Lemma lastId_bounds_ids_no_reuse_witness :
  (id <$> inquiries (readData disk_after_sample_ops) = [1; 3; 4] ∧
   lastId (readData disk_after_sample_ops) = 4 ∧
   assigned_ids (run sample_ops initDatabase).1 = [1; 2; 3; 4]) ∧
  Forall (λ i, id i ≤ lastId (readData disk_after_sample_ops))
    (inquiries (readData disk_after_sample_ops)) ∧
  assigned_ids (run sample_ops initDatabase).1
  = seqZ 1 (lastId (readData (run sample_ops initDatabase).2)) ∧
  NoDup (assigned_ids (run sample_ops initDatabase).1).
Proof.
  split; [by vm_compute |]. split.
  - apply (proj1 lastId_bounds_ids_no_reuse disk_after_sample_ops).
    apply reachable_run, reachable_init.
  - apply (proj2 lastId_bounds_ids_no_reuse sample_ops).
Defined.

(** ** The rate limiter *)

Section RateLimitFacts.
Context `{Countable K}.
Implicit Types (ip : K) (store : gmap K (list Z)) (now : Z).





End RateLimitFacts.


(** ** Base64 *)

Lemma allN_spec n f x : allN n f = true → (x < N.of_nat n)%N → f x = true.
Proof.
  unfold allN. rewrite forallb_forall. intros Hall Hx.
  rewrite <- (N2Nat.id x). apply Hall, in_seq. lia.
Qed.

Lemma byte_pair_facts_all x y :
  (x < 256)%N → (y < 256)%N → byte_pair_facts x y = true.
Proof.
  intros Hx Hy.
  assert (Hall : allN 256 (λ a, allN 256 (byte_pair_facts a)) = true)
    by (vm_compute; reflexivity).
  apply (allN_spec 256 (byte_pair_facts x)); [| done].
  apply (allN_spec 256 (λ a, allN 256 (byte_pair_facts a))); done.
Qed.

Lemma sextet_facts_all v : (v < 64)%N → sextet_facts v = true.
Proof.
  intros Hv.
  assert (Hall : allN 64 sextet_facts = true) by (vm_compute; reflexivity).
  by apply (allN_spec 64).
Qed.

Lemma sextets_base64_char v s :
  (v < 64)%N → sextets (base64_char v :: s) = v :: sextets s.
Proof.
  intros Hv. pose proof (sextet_facts_all v Hv) as Hf.
  unfold sextet_facts in Hf.
  apply andb_true_iff in Hf as [Hf Hun].
  apply andb_true_iff in Hf as [Hpad _].
  apply bool_decide_eq_true in Hun. apply negb_true_iff in Hpad.
  simpl. by rewrite Hpad, Hun.
Qed.

Lemma base64_char_not_space v : (v < 64)%N → base64_char v ≠ 32%N.
Proof.
  intros Hv. pose proof (sextet_facts_all v Hv) as Hf.
  unfold sextet_facts in Hf.
  apply andb_true_iff in Hf as [Hf _].
  apply andb_true_iff in Hf as [_ Hsp].
  apply negb_true_iff, N.eqb_neq in Hsp. done.
Qed.

Ltac byte_facts x y Hx Hy :=
  let Hf := fresh "Hf" in
  pose proof (byte_pair_facts_all x y Hx Hy) as Hf;
  unfold byte_pair_facts in Hf;
  repeat (let H1 := fresh "Hbits" in
          apply andb_true_iff in Hf as [Hf H1]);
  repeat match goal with
         | H : (_ <? _)%N = true |- _ => apply N.ltb_lt in H
         | H : (_ =? _)%N = true |- _ => apply N.eqb_eq in H
         end.

(** Three-at-a-time induction on lists. *)
Lemma list_ind3 {A} (P : list A → Prop) :
  P [] → (∀ a, P [a]) → (∀ a b, P [a; b]) →
  (∀ a b c l, P l → P (a :: b :: c :: l)) →
  ∀ l, P l.
Proof.
  intros H0 H1 H2 H3 l.
  assert (Hall : P l ∧ (∀ a, P (a :: l)) ∧ (∀ a b, P (a :: b :: l))).
  { induction l as [|x l (IH0 & IH1 & IH2)]; [by repeat split |].
    split; [exact (IH1 x) |]. split; [exact (λ a, IH2 a x) |].
    intros a b. by apply H3. }
  apply Hall.
Qed.

(** Decoding undoes encoding. *)
Lemma base64_roundtrip bytes :
  Forall (λ b, (b < 256)%N) bytes →
  Buffer_from_base64 (base64_encode bytes) = bytes.
Proof.
  unfold Buffer_from_base64.
  induction bytes as [| a | a b | a b c rest IH] using list_ind3; intros Hall.
  - done.
  - apply Forall_cons in Hall as [Ha _].
    byte_facts a a Ha Ha.
    cbn [base64_encode]. rewrite !sextets_base64_char by done.
    simpl. congruence.
  - apply Forall_cons in Hall as [Ha [Hb _]%Forall_cons].
    byte_facts a b Ha Hb. byte_facts b b Hb Hb.
    cbn [base64_encode]. rewrite !sextets_base64_char by done.
    simpl. congruence.
  - apply Forall_cons in Hall as [Ha Hall].
    apply Forall_cons in Hall as [Hb Hall].
    apply Forall_cons in Hall as [Hc Hall].
    byte_facts a b Ha Hb. byte_facts b c Hb Hc.
    cbn [base64_encode]. rewrite !sextets_base64_char by done.
    cbn [sextets_to_bytes]. rewrite IH by done. congruence.
Qed.

Lemma base64_encode_no_space bytes :
  Forall (λ b, (b < 256)%N) bytes → 32%N ∉ base64_encode bytes.
Proof.
  induction bytes as [| a | a b | a b c rest IH] using list_ind3; intros Hall.
  - apply not_elem_of_nil.
  - apply Forall_cons in Hall as [Ha _].
    byte_facts a a Ha Ha. cbn [base64_encode].
    rewrite !not_elem_of_cons. repeat split;
      try (apply not_eq_sym, base64_char_not_space; done);
      try done; apply not_elem_of_nil.
  - apply Forall_cons in Hall as [Ha [Hb _]%Forall_cons].
    byte_facts a b Ha Hb. byte_facts b b Hb Hb. cbn [base64_encode].
    rewrite !not_elem_of_cons. repeat split;
      try (apply not_eq_sym, base64_char_not_space; done);
      try done; apply not_elem_of_nil.
  - apply Forall_cons in Hall as [Ha Hall].
    apply Forall_cons in Hall as [Hb Hall].
    apply Forall_cons in Hall as [Hc Hall].
    byte_facts a b Ha Hb. byte_facts b c Hb Hc. cbn [base64_encode].
    rewrite !not_elem_of_cons. repeat split;
      try (apply not_eq_sym, base64_char_not_space; done).
    by apply IH.
Qed.

Lemma toString_ascii_id bytes :
  Forall (λ b, (b < 128)%N) bytes → toString_ascii bytes = bytes.
Proof.
  unfold toString_ascii. induction 1 as [|b bytes Hb Hall IH]; simpl; [done |].
  rewrite IH. f_equal. change 127%N with (N.ones 7).
  rewrite N.land_ones. by apply N.mod_small.
Qed.

(** ** Splitting *)

Lemma split_head_no_sep sep s :
  ∃ w ws, split sep s = w :: ws ∧ sep ∉ w.
Proof.
  induction s as [|c s (w & ws & IH & Hw)]; simpl.
  - exists [], []. split; [done | apply not_elem_of_nil].
  - destruct (c =? sep)%N eqn:Hc.
    + exists [], (split sep s). split; [done | apply not_elem_of_nil].
    + rewrite IH. exists (c :: w), ws. split; [done |].
      apply N.eqb_neq in Hc. rewrite not_elem_of_cons. split; congruence.
Qed.

Lemma split_no_sep sep s : sep ∉ s → split sep s = [s].
Proof.
  induction s as [|c s IH]; simpl; [done |].
  rewrite not_elem_of_cons. intros [Hc Hs].
  apply not_eq_sym, N.eqb_neq in Hc. by rewrite Hc, IH.
Qed.

Lemma split_at_sep sep u rest :
  sep ∉ u → split sep (u ++ sep :: rest) = u :: split sep rest.
Proof.
  induction u as [|c u IH]; simpl.
  - by rewrite N.eqb_refl.
  - rewrite not_elem_of_cons. intros [Hc Hu].
    apply not_eq_sym, N.eqb_neq in Hc. by rewrite Hc, IH.
Qed.

Lemma startsWith_app p s : startsWith p (p ++ s) = true.
Proof. induction p as [|a p IH]; simpl; [done |]. by rewrite N.eqb_refl. Qed.

Lemma strict_ne_Some s y : strict_ne (Some s) y = negb (bool_decide (s = y)).
Proof. done. Qed.

(** ** Credentials *)

Lemma ascii_only_bytes s : ascii_only s → Forall (λ b, (b < 256)%N) s.
Proof. intros Hs. eapply Forall_impl; [exact Hs |]. simpl. intros; lia. Qed.

(** The check on a header that is present and not empty. *)
Lemma check_credentials_header env h :
  h ≠ [] →
  check_credentials env (Some h)
  = if negb (startsWith (lit "Basic ") h)
    then Reply (respond 401 (JError "Unauthorized"))
    else
      let parts :=
        split 58 (toString_ascii
                    (Buffer_from_base64 (default [] (split 32 h !! 1%nat)))) in
      if strict_ne (parts !! 0%nat) (adminUser env)
         || strict_ne (parts !! 1%nat) (adminPass env)
      then invalid_credentials else Next.
Proof. intros Hne. by destruct h. Qed.

Lemma basic_header_parts b64 :
  32%N ∉ b64 →
  startsWith (lit "Basic ") (lit "Basic " ++ b64) = true ∧
  split 32 (lit "Basic " ++ b64) !! 1%nat = Some b64.
Proof.
  intros Hspace. split; [apply startsWith_app |].
  change (lit "Basic " ++ b64) with (lit "Basic" ++ 32%N :: b64).
  rewrite split_at_sep, (split_no_sep 32 b64 Hspace); [done |].
  vm_compute. intros Hin.
  repeat (apply elem_of_cons in Hin as [Hin | Hin]; [discriminate |]).
  by apply elem_of_nil in Hin.
Qed.

(** What the check makes of a well-formed header: the user name is the
    text before the first colon, the password the text between the first
    colon and the second one, if any. *)
Lemma check_credentials_basic env u p :
  ascii_only u → (58%N ∉ u) → ascii_only p →
  ∃ w ws,
    split 58 p = w :: ws ∧ (58%N ∉ w) ∧
    check_credentials env (Some (basic_header u p))
    = if bool_decide (u = adminUser env ∧ w = adminPass env)
      then Next else invalid_credentials.
Proof.
  intros Hu Hcolon Hp.
  destruct (split_head_no_sep 58 p) as (w & ws & Hsplit & Hw).
  exists w, ws. split; [done |]. split; [done |].
  assert (Hascii : ascii_only (u ++ lit ":" ++ p)).
  { apply Forall_app. split; [done |].
    apply Forall_cons. split; [done | exact Hp]. }
  pose proof (ascii_only_bytes _ Hascii) as Hbytes.
  destruct (basic_header_parts _ (base64_encode_no_space _ Hbytes))
    as [Hstart Hpart].
  rewrite check_credentials_header by done.
  unfold basic_header. rewrite Hstart, Hpart.
  cbn [negb default from_option Datatypes.id].
  rewrite (base64_roundtrip _ Hbytes), (toString_ascii_id _ Hascii).
  change (u ++ lit ":" ++ p) with (u ++ 58%N :: p).
  rewrite (split_at_sep 58 u p Hcolon), Hsplit.
  cbn [lookup list_lookup]. rewrite !strict_ne_Some.
  destruct (bool_decide_reflect (u = adminUser env));
    destruct (bool_decide_reflect (w = adminPass env));
    destruct (bool_decide_reflect (u = adminUser env ∧ w = adminPass env));
    simpl; try done; exfalso; tauto.
Qed.

(** Credentials without a colon that equal the configured ones pass. *)
Lemma check_credentials_accepts env :
  ascii_only (adminUser env) → (58%N ∉ adminUser env) →
  ascii_only (adminPass env) → (58%N ∉ adminPass env) →
  check_credentials env (Some (basic_header (adminUser env) (adminPass env)))
  = Next.
Proof.
  intros Hu Hcu Hp Hcp.
  destruct (check_credentials_basic env _ _ Hu Hcu Hp) as (w & ws & Hs & _ & ->).
  rewrite (split_no_sep 58 _ Hcp) in Hs. injection Hs as <- <-.
  by rewrite bool_decide_eq_true_2.
Qed.

(** The check on a header that carries the base64 encoding of any
    seven-bit text: the text is cut at its colons and the first two
    pieces are compared. *)
Lemma check_credentials_payload env (payload : jsstring) :
  ascii_only payload →
  check_credentials env (Some (lit "Basic " ++ base64_encode payload))
  = if strict_ne (split 58 payload !! 0%nat) (adminUser env)
       || strict_ne (split 58 payload !! 1%nat) (adminPass env)
    then invalid_credentials else Next.
Proof.
  intros Hascii. pose proof (ascii_only_bytes _ Hascii) as Hbytes.
  destruct (basic_header_parts _ (base64_encode_no_space _ Hbytes))
    as [Hstart Hpart].
  rewrite check_credentials_header by done.
  rewrite Hstart, Hpart. cbn [negb default from_option Datatypes.id].
  by rewrite (base64_roundtrip _ Hbytes), (toString_ascii_id _ Hascii).
Qed.


(** C3 (as the code has it). Every attempt on the admin listing that is
    not answered 200 is answered 401 and leaves the file alone, with one
    of two messages.  A missing header and a header that does not start
    with the [Basic] scheme get the message "Unauthorized"; every other
    failing attempt gets the message "Invalid credentials": in
    particular a wrong user name and a wrong password, for seven-bit
    credentials without a colon, and a payload that holds no colon, so
    no password at all. *)
Theorem get_admin_inquiries_unauthorized Date_parse env d :
  (∀ authorization,
     code (get_admin_inquiries Date_parse env authorization d).1 = 200 ∨
     get_admin_inquiries Date_parse env authorization d
     = (respond 401 (JError "Unauthorized"), d) ∨
     get_admin_inquiries Date_parse env authorization d
     = (respond 401 (JError "Invalid credentials"), d)) ∧
  get_admin_inquiries Date_parse env None d
  = (respond 401 (JError "Unauthorized"), d) ∧
  (∀ h, startsWith (lit "Basic ") h = false →
        get_admin_inquiries Date_parse env (Some h) d
        = (respond 401 (JError "Unauthorized"), d)) ∧
  (∀ h, startsWith (lit "Basic ") h = true →
        code (get_admin_inquiries Date_parse env (Some h) d).1 = 200 ∨
        get_admin_inquiries Date_parse env (Some h) d
        = (respond 401 (JError "Invalid credentials"), d)) ∧
  (∀ u p, ascii_only u → ascii_only p → (58%N ∉ u) → (58%N ∉ p) →
          u ≠ adminUser env ∨ p ≠ adminPass env →
          get_admin_inquiries Date_parse env (Some (basic_header u p)) d
          = (respond 401 (JError "Invalid credentials"), d)) ∧
  (∀ payload, ascii_only payload → (58%N ∉ payload) →
          get_admin_inquiries Date_parse env
            (Some (lit "Basic " ++ base64_encode payload)) d
          = (respond 401 (JError "Invalid credentials"), d)).
Proof.
  assert (Hother : ∀ h, startsWith (lit "Basic ") h = false →
            get_admin_inquiries Date_parse env (Some h) d
            = (respond 401 (JError "Unauthorized"), d)).
  { intros h Hscheme. unfold get_admin_inquiries.
    destruct h as [|c h]; [done |].
    rewrite check_credentials_header by done. by rewrite Hscheme. }
  assert (Hbasic : ∀ h, startsWith (lit "Basic ") h = true →
            code (get_admin_inquiries Date_parse env (Some h) d).1 = 200 ∨
            get_admin_inquiries Date_parse env (Some h) d
            = (respond 401 (JError "Invalid credentials"), d)).
  { intros h Hscheme. unfold get_admin_inquiries.
    destruct h as [|c h]; [done |].
    rewrite check_credentials_header by done. rewrite Hscheme.
    cbn [negb]. destruct (strict_ne _ _ || strict_ne _ _); [by right | by left]. }
  split; [| split; [done |]; split; [done |]; split; [done |]; split].
  - intros [h|]; [| right; by left].
    destruct (startsWith (lit "Basic ") h) eqn:Hscheme.
    + destruct (Hbasic h Hscheme); auto.
    + right. left. by apply Hother.
  - intros u p Hu Hp Hcu Hcp Hwrong. unfold get_admin_inquiries.
    destruct (check_credentials_basic env u p Hu Hcu Hp)
      as (w & ws & Hs & _ & ->).
    rewrite (split_no_sep 58 p Hcp) in Hs. injection Hs as <- <-.
    rewrite bool_decide_eq_false_2; [done |].
    intros [Hsame Hsame']. destruct Hwrong; done.
  - intros payload Hascii Hcolon. unfold get_admin_inquiries.
    rewrite (check_credentials_payload env payload Hascii).
    rewrite (split_no_sep 58 payload Hcolon). cbn [lookup list_lookup].
    cbn [strict_ne]. by rewrite orb_true_r.
Qed.

(** Membership of a character in a literal, refuted by evaluation. *)
Ltac not_in_literal :=
  let Hin := fresh "Hin" in
  vm_compute; intros Hin;
  repeat (apply elem_of_cons in Hin as [Hin | Hin]; [discriminate |]);
  by apply elem_of_nil in Hin.

Lemma get_admin_inquiries_unauthorized_witness :
  get_admin_inquiries (λ _, NaN) no_env (Some (lit "Bearer abc")) initDatabase
  = (respond 401 (JError "Unauthorized"), initDatabase) ∧
  get_admin_inquiries (λ _, NaN) no_env
    (Some (basic_header (lit "Mehul20020") (lit "letmein"))) initDatabase
  = (respond 401 (JError "Invalid credentials"), initDatabase) ∧
  get_admin_inquiries (λ _, NaN) no_env
    (Some (lit "Basic " ++ base64_encode (lit "Mehul20020"))) initDatabase
  = (respond 401 (JError "Invalid credentials"), initDatabase).
Proof.
  destruct (get_admin_inquiries_unauthorized (λ _, NaN) no_env initDatabase)
    as (_ & _ & Hscheme & _ & Hwrong & Hbare).
  split; [| split].
  - apply Hscheme. reflexivity.
  - apply Hwrong.
    + vm_compute. repeat constructor.
    + vm_compute. repeat constructor.
    + not_in_literal.
    + not_in_literal.
    + right. vm_compute. discriminate.
  - apply Hbare.
    + vm_compute. repeat constructor.
    + not_in_literal.
Defined.

(** C3, as stated, fails: a request without header and a request with a
    wrong password are both answered 401, with different messages. *)
Lemma unauthorized_messages_differ :
  let missing :=
    (get_admin_inquiries (λ _, NaN) no_env None initDatabase).1 in
  let wrong_password :=
    (get_admin_inquiries (λ _, NaN) no_env
       (Some (basic_header (lit "Mehul20020") (lit "letmein")))
       initDatabase).1 in
  code missing = 401 ∧ code wrong_password = 401 ∧
  payload missing = JError "Unauthorized" ∧
  payload wrong_password = JError "Invalid credentials" ∧
  payload missing ≠ payload wrong_password.
Proof.
  vm_compute. repeat split; try reflexivity. discriminate.
Qed.

(** C9 (the code at the failing inputs). When the configured password
    contains a colon, the header that carries exactly the configured
    user name and password is answered 401 "Invalid credentials": the
    password compared is only the text up to the second colon. *)
Theorem check_credentials_rejects_colon_password env :
  ascii_only (adminUser env) → (58%N ∉ adminUser env) →
  ascii_only (adminPass env) → 58%N ∈ adminPass env →
  check_credentials env (Some (basic_header (adminUser env) (adminPass env)))
  = Reply (respond 401 (JError "Invalid credentials")).
Proof.
  intros Hu Hcu Hp Hcolon.
  destruct (check_credentials_basic env _ _ Hu Hcu Hp)
    as (w & ws & Hs & Hw & ->).
  rewrite bool_decide_eq_false_2; [done |].
  intros [_ Hsame]. rewrite Hsame in Hw. done.
Qed.

Lemma check_credentials_rejects_colon_password_witness :
  check_credentials colon_env (Some (lit "Basic YWRtaW46cGE6c3M="))
  = Reply (respond 401 (JError "Invalid credentials")).
Proof.
  apply (check_credentials_rejects_colon_password colon_env).
  - vm_compute. repeat constructor.
  - vm_compute. intros Hin.
    repeat (apply elem_of_cons in Hin as [Hin | Hin]; [discriminate |]).
    by apply elem_of_nil in Hin.
  - vm_compute. repeat constructor.
  - vm_compute. do 2 right. left.
Defined.

(** C10 (the code at the failing inputs). An accepted submission whose
    [travelers] does not start with a number, after optional white space
    and sign, is stored with [travelers] equal to [null], which is not an
    integer. *)
Theorem post_inquiry_travelers_not_a_number now1 now2
    (body : gmap string jsval) d p :
  field body "phone" = JStr p →
  (∀ k, k ∈ required_fields → truthy (field body k) = true) →
  phone_pattern (strip_spaces p) →
  parseInt (field body "travelers") = NaN →
  ∃ inquiry,
    post_inquiry now1 now2 body d
    = (respond 201 (JSubmitted (lastId (readData d) + 1)),
       writeData {| inquiries := inquiries (readData d) ++ [inquiry];
                    lastId := lastId (readData d) + 1 |} d) ∧
    travelers inquiry = JNull ∧ ¬ is_integer (travelers inquiry).
Proof.
  intros Hphone Hall Hpat Hnan.
  rewrite (post_inquiry_decided now1 now2 body d p Hphone Hall).
  apply phone_regex_pattern in Hpat. rewrite Hpat, Hnan. simpl.
  eexists. split; [reflexivity |]. simpl. split; [done |].
  intros [z Hz]. discriminate.
Qed.

Lemma post_inquiry_travelers_not_a_number_witness :
  ∃ inquiry,
    post_inquiry (lit "2024-05-01T10:00:00.000Z")
      (lit "2024-05-01T10:00:00.000Z") body_travelers_word initDatabase
    = (respond 201 (JSubmitted (lastId (readData initDatabase) + 1)),
       writeData
         {| inquiries := inquiries (readData initDatabase) ++ [inquiry];
            lastId := lastId (readData initDatabase) + 1 |} initDatabase) ∧
    travelers inquiry = JNull ∧ ¬ is_integer (travelers inquiry).
Proof.
  apply (post_inquiry_travelers_not_a_number _ _ body_travelers_word
           initDatabase (lit "+91 98765 43210")).
  - reflexivity.
  - solve_required.
  - apply phone_regex_pattern. reflexivity.
  - reflexivity.
Defined.

(** ** More on the rate limiter *)

Section RateLimitTraceFacts.
Context `{Countable K}.
Implicit Types (ip : K) (store : gmap K (list Z)) (now : Z).

Lemma apiLimiter_other ip ip' now store :
  ip ≠ ip' → (apiLimiter ip now store).2 !! ip' = store !! ip'.
Proof.
  intros Hne. unfold apiLimiter.
  destruct (30 <=? _)%nat; simpl; [done |]. by rewrite lookup_insert_ne.
Qed.

(** The answer to a call and the new record of the caller depend on the
    caller's record only. *)
Lemma apiLimiter_local ip now store1 store2 :
  store1 !! ip = store2 !! ip →
  (apiLimiter ip now store1).1 = (apiLimiter ip now store2).1 ∧
  (apiLimiter ip now store1).2 !! ip = (apiLimiter ip now store2).2 !! ip.
Proof.
  intros Heq. unfold apiLimiter. rewrite Heq.
  destruct (30 <=? _)%nat; simpl; [done |].
  by rewrite !lookup_insert_eq.
Qed.

Lemma limiter_calls_local ip times : ∀ store1 store2,
  store1 !! ip = store2 !! ip →
  (limiter_calls ip times store1).1 = (limiter_calls ip times store2).1 ∧
  (limiter_calls ip times store1).2 !! ip
  = (limiter_calls ip times store2).2 !! ip.
Proof.
  induction times as [|now later IH]; intros store1 store2 Heq; simpl.
  - done.
  - destruct (apiLimiter_local ip now store1 store2 Heq) as [Hg Hs].
    destruct (apiLimiter ip now store1) as [g1 st1].
    destruct (apiLimiter ip now store2) as [g2 st2]. simpl in *.
    destruct (IH st1 st2 Hs) as [Hgs Hss].
    destruct (limiter_calls ip later st1) as [gs1 st1'].
    destruct (limiter_calls ip later st2) as [gs2 st2']. simpl in *.
    by rewrite Hg, Hgs.
Qed.

(** X1. Clients do not interfere: in any interleaving of calls, the
    answers given to one client, and the record kept for it, are those
    of its own calls taken alone. *)
Theorem limiter_trace_isolation ip (calls : list (K * Z)) store :
  gates_of ip calls (limiter_trace calls store).1
  = (limiter_calls ip (times_of ip calls) store).1 ∧
  (limiter_trace calls store).2 !! ip
  = (limiter_calls ip (times_of ip calls) store).2 !! ip.
Proof.
  revert store. induction calls as [|[ip' now] later IH]; intros store.
  - done.
  - cbn [limiter_trace].
    destruct (apiLimiter ip' now store) as [g st] eqn:Hcall.
    specialize (IH st).
    destruct (limiter_trace later st) as [gs st'] eqn:Htrace.
    unfold gates_of, times_of in *. cbn [fst snd zip zip_with] in *.
    destruct (decide (ip' = ip)) as [-> | Hne].
    + rewrite !filter_cons_True by done. cbn [fmap list_fmap snd limiter_calls].
      rewrite Hcall.
      destruct (limiter_calls ip (snd <$> filter (λ c, c.1 = ip) later) st)
        as [gs0 st0]. simpl in *.
      destruct IH as [-> ->]. done.
    + rewrite !filter_cons_False by done.
      assert (Hsame : st !! ip = store !! ip).
      { replace st with (apiLimiter ip' now store).2 by (by rewrite Hcall).
        by apply apiLimiter_other. }
      destruct (limiter_calls_local ip
                  (snd <$> filter (λ c, c.1 = ip) later) st store Hsame)
        as [Hg Hs].
      destruct IH as [IH1 IH2]. by rewrite IH1, IH2, Hg, Hs.
Qed.

(** X2. No record grows beyond 30 instants: if every record holds at
    most 30, so does every record after any sequence of calls. *)
Theorem limiter_trace_bounded (calls : list (K * Z)) store :
  map_Forall (λ _ l, (length l ≤ 30)%nat) store →
  map_Forall (λ _ l, (length l ≤ 30)%nat) (limiter_trace calls store).2.
Proof.
  revert store. induction calls as [|[ip now] later IH]; intros store Hb.
  - done.
  - cbn [limiter_trace].
    destruct (apiLimiter ip now store) as [g st] eqn:Hcall.
    specialize (IH st).
    destruct (limiter_trace later st) as [gs st']. simpl. apply IH.
    unfold apiLimiter in Hcall.
    destruct (30 <=? _)%nat eqn:Hfull; inversion Hcall; subst; [done |].
    apply map_Forall_insert_2; [| done].
    apply Nat.leb_gt in Hfull. rewrite length_app. simpl. lia.
Qed.
End RateLimitTraceFacts.

Lemma limiter_trace_bounded_witness :
  map_Forall (λ _ l, (length l ≤ 30)%nat)
    (limiter_trace
       [("203.0.113.7"%string, 1000); ("198.51.100.2"%string, 1500);
        ("203.0.113.7"%string, 90000)] ∅).2.
Proof.
  apply (limiter_trace_bounded
           [("203.0.113.7"%string, 1000); ("198.51.100.2"%string, 1500);
            ("203.0.113.7"%string, 90000)] ∅).
  apply map_Forall_empty.
Defined.

Section RateLimitWindow.
Context `{Countable K}.
Implicit Types (ip : K) (store : gmap K (list Z)) (now : Z).

Lemma filter_window_mono (lo now : Z) (history : list Z) :
  lo ≤ now →
  filter (λ time, now - time < 60000) (filter (λ time, lo - time < 60000) history)
  = filter (λ time, now - time < 60000) history.
Proof.
  intros Hle. rewrite list_filter_filter.
  apply list_filter_iff. intros t. lia.
Qed.

(** While the clock does not go back, the pruned record decides as the
    whole history of the calls let through would. *)
Lemma limiter_calls_unpruned ip times : ∀ store lo history,
  default [] (store !! ip) = filter (λ time, lo - time < 60000) history →
  Forall (λ t, lo ≤ t) times →
  StronglySorted Z.le times →
  (limiter_calls ip times store).1 = unpruned_calls history times.
Proof.
  induction times as [|now later IH]; intros store lo history Hrec Hlo Hsorted.
  - done.
  - apply Forall_cons in Hlo as [Hnow Hlo].
    apply StronglySorted_inv in Hsorted as [Hsorted Hlater].
    cbn [limiter_calls unpruned_calls]. unfold apiLimiter.
    rewrite Hrec, (filter_window_mono lo now history Hnow).
    destruct (30 <=? _)%nat.
    + specialize (IH store lo history Hrec Hlo Hsorted).
      destruct (limiter_calls ip later store) as [gs st]. simpl in *.
      by rewrite IH.
    + set (recent := filter (λ time, now - time < 60000) history).
      specialize (IH (<[ip := recent ++ [now]]> store) now (history ++ [now])).
      destruct (limiter_calls ip later (<[ip := recent ++ [now]]> store))
        as [gs st]. simpl in *. rewrite IH; [done | | done | done].
      rewrite lookup_insert_eq. simpl.
      rewrite filter_app, filter_cons_True, filter_nil by lia. done.
Qed.

(** X3. Pruning is invisible: for a client not yet on record whose
    calls carry a clock that never goes back, each call is let through
    exactly when fewer than 30 of its earlier calls that were let
    through lie less than 60,000 ms back. *)
Theorem limiter_calls_sliding_window ip times store :
  store !! ip = None →
  StronglySorted Z.le times →
  (limiter_calls ip times store).1 = unpruned_calls [] times.
Proof.
  intros Hfresh Hsorted.
  destruct times as [|t0 later]; [done |].
  apply (limiter_calls_unpruned ip (t0 :: later) store t0 []).
  - by rewrite Hfresh.
  - apply StronglySorted_inv in Hsorted as [_ Hlater].
    apply Forall_cons. split; [lia | exact Hlater].
  - exact Hsorted.
Qed.
End RateLimitWindow.

Lemma limiter_calls_sliding_window_witness :
  (limiter_calls "203.0.113.7"%string [0; 10; 59999; 60000; 60010] ∅).1
  = unpruned_calls [] [0; 10; 59999; 60000; 60010].
Proof.
  apply (limiter_calls_sliding_window "203.0.113.7"%string
           [0; 10; 59999; 60000; 60010] ∅).
  - reflexivity.
  - repeat constructor; lia.
Defined.

(** ** More on submissions *)

Lemma post_inquiry_code now1 now2 (body : gmap string jsval) d :
  code (post_inquiry now1 now2 body d).1 = 201 ∨
  code (post_inquiry now1 now2 body d).1 = 400 ∨
  code (post_inquiry now1 now2 body d).1 = 500.
Proof.
  unfold post_inquiry.
  destruct (negb (truthy (field body "name")) || _ || _ || _); [auto |].
  destruct (field body "phone") as [| | | |p]; auto.
  destruct (negb (test_anchored phone_regex (strip_spaces p))); auto.
Qed.

(** X4. The limiter counts every submission it lets through, whatever
    the handler then answers: over a sequence of submissions of one
    client, the table ends as it would for the same instants alone, a
    request is answered 429 exactly where the limiter rejects, and the
    data file ends as if only the submissions let through had reached
    the handler. *)
Theorem route_trace_quota `{Countable K} (ip : K) (reqs : list Submission)
    (rl : gmap K (list Z)) (d : Disk) :
  (route_trace ip reqs (rl, d)).2.1
  = (limiter_calls ip (at_ms <$> reqs) rl).2 ∧
  Forall2 (λ r g, match g with
                  | Reply r' => r = r'
                  | Next => code r ≠ 429
                  end)
    (route_trace ip reqs (rl, d)).1
    (limiter_calls ip (at_ms <$> reqs) rl).1 ∧
  (route_trace ip reqs (rl, d)).2.2
  = handle_passed reqs (limiter_calls ip (at_ms <$> reqs) rl).1 d.
Proof.
  revert rl d. induction reqs as [|q later IH]; intros rl d.
  - split; [done |]. split; [constructor | done].
  - cbn [route_trace fmap list_fmap limiter_calls].
    unfold route_post_inquiry. cbn [fst snd].
    destruct (apiLimiter ip (at_ms q) rl) as [[|r] rl1].
    + pose proof (post_inquiry_code (at_iso1 q) (at_iso2 q) (fields q) d)
        as Hcode.
      destruct (post_inquiry (at_iso1 q) (at_iso2 q) (fields q) d)
        as [r d1] eqn:Hpost.
      specialize (IH rl1 d1).
      destruct (route_trace ip later (rl1, d1)) as [rs st2].
      destruct (limiter_calls ip (at_ms <$> later) rl1) as [gs rl2].
      cbn [fst snd handle_passed] in *. rewrite Hpost. cbn [snd].
      destruct IH as (-> & IH & ->). split; [done |].
      split; [| done]. constructor; [| done]. lia.
    + specialize (IH rl1 d).
      destruct (route_trace ip later (rl1, d)) as [rs st2].
      destruct (limiter_calls ip (at_ms <$> later) rl1) as [gs rl2].
      cbn [fst snd handle_passed] in *.
      destruct IH as (-> & IH & ->). split; [done |].
      split; [| done]. by constructor.
Qed.

(** X5. A phone that is truthy but not a string, in a submission with
    the other required fields, ends in the handler's [catch]: the answer
    is 500 "Failed to submit inquiry" and nothing is written. *)
Theorem post_inquiry_phone_not_string now1 now2 (body : gmap string jsval) d :
  (∀ k, k ∈ required_fields → truthy (field body k) = true) →
  (∀ s, field body "phone" ≠ JStr s) →
  post_inquiry now1 now2 body d
  = (respond 500 (JError "Failed to submit inquiry"), d).
Proof.
  intros Hall Hphone. unfold post_inquiry.
  rewrite (required_all_truthy body Hall).
  destruct (field body "phone") as [| | | |p]; try done.
  by destruct (Hphone p).
Qed.

Lemma post_inquiry_phone_not_string_witness :
  post_inquiry (lit "2024-05-01T10:00:00.000Z") (lit "2024-05-01T10:00:00.000Z")
    body_phone_number initDatabase
  = (respond 500 (JError "Failed to submit inquiry"), initDatabase).
Proof.
  apply (post_inquiry_phone_not_string _ _ body_phone_number initDatabase).
  - solve_required.
  - intros s. vm_compute. discriminate.
Defined.

(** ** Writes *)


(** X7. A data file that is missing or does not parse is read as the
    empty document: every request is answered as on a file that holds
    the empty document, and writes what it would write there; a request
    that does not write leaves the file missing. *)
Theorem step_without_file o w :
  (step o (no_file w)).1 = (step o (empty_file w)).1 ∧
  ((step o (no_file w)).2 = (step o (empty_file w)).2 ∨
   ((step o (no_file w)).2 = no_file w ∧
    (step o (empty_file w)).2 = empty_file w)).
Proof.
  destruct o as [now1 now2 body | now id_param body | id_param]; simpl.
  - unfold post_inquiry.
    destruct (negb (truthy (field body "name")) || _ || _ || _); [auto |].
    destruct (field body "phone") as [| | | |p]; auto.
    destruct (negb (test_anchored phone_regex (strip_spaces p))); auto.
  - unfold put_admin_inquiry. simpl. auto.
  - unfold delete_admin_inquiry. simpl. auto.
Qed.

(** ** Invariants of the stored document *)








Lemma StronglySorted_snoc_lt (l : list Z) (k : Z) :
  StronglySorted Z.lt l → Forall (λ x, x < k) l → StronglySorted Z.lt (l ++ [k]).
Proof.
  induction 1 as [|a l Hl IH Ha]; intros Hk; simpl.
  - repeat constructor.
  - apply Forall_cons in Hk as [Hak Hk]. constructor; [auto |].
    apply Forall_app. split; [done |]. by apply Forall_singleton.
Qed.

Lemma StronglySorted_filter_ids (f : Inquiry → bool) (l : list Inquiry) :
  StronglySorted Z.lt (id <$> l) → StronglySorted Z.lt (id <$> List.filter f l).
Proof.
  induction l as [|a l IH]; simpl; [done |].
  intros Hs. apply StronglySorted_inv in Hs as [Hs Ha].
  destruct (f a); [| auto]. rewrite fmap_cons. constructor; [auto |].
  rewrite Forall_fmap in *. by apply Forall_filter_keep.
Qed.

(** Ids in stored order: strictly increasing and at most [lastId]. *)
Lemma step_ids_increasing o d :
  ids_bounded (readData d) →
  StronglySorted Z.lt (id <$> inquiries (readData d)) →
  StronglySorted Z.lt (id <$> inquiries (readData (step o d).2)).
Proof.
  intros [Hpos Hb] Hs.
  destruct o as [now1 now2 body | now id_param body | id_param]; simpl.
  - destruct (post_inquiry_cases now1 now2 body d)
      as [(c & m & ->) | (inquiry & Hid & ->)]; simpl; [done |].
    rewrite fmap_app. simpl. apply StronglySorted_snoc_lt; [done |].
    rewrite Forall_fmap. eapply Forall_impl; [exact Hb |].
    simpl. intros; lia.
  - unfold put_admin_inquiry. destruct (List.find _ _); simpl; [| done].
    by rewrite update_first_ids.
  - unfold delete_admin_inquiry. destruct (_ <? _)%nat; simpl; [| done].
    by apply StronglySorted_filter_ids.
Qed.

Lemma reachable_ids_bounded d : reachable d → ids_bounded (readData d).
Proof.
  induction 1 as [|o d Hreach IH].
  - split; simpl; [done | constructor].
  - by apply step_counter.
Qed.

Lemma reachable_ids_increasing d :
  reachable d → StronglySorted Z.lt (id <$> inquiries (readData d)).
Proof.
  induction 1 as [|o d Hreach IH]; [constructor |].
  apply step_ids_increasing; [by apply reachable_ids_bounded | done].
Qed.

Lemma StronglySorted_lt_NoDup (l : list Z) : StronglySorted Z.lt l → NoDup l.
Proof.
  induction 1 as [|a l Hl IH Ha]; constructor; [| done].
  intros Hin. rewrite Forall_forall in Ha. apply Ha in Hin. lia.
Qed.

Lemma reachable_ids_NoDup d :
  reachable d → NoDup (id <$> inquiries (readData d)).
Proof. intros Hreach. by apply StronglySorted_lt_NoDup, reachable_ids_increasing. Qed.

(** X9. In every document reachable from the empty one the inquiries
    are stored in strictly increasing order of id, so that no two of
    them share an id, and every id lies between 1 and [lastId]. *)
Theorem reachable_ids_distinct d :
  reachable d →
  StronglySorted Z.lt (id <$> inquiries (readData d)) ∧
  NoDup (id <$> inquiries (readData d)) ∧
  Forall (λ i, 1 ≤ id i ≤ lastId (readData d)) (inquiries (readData d)).
Proof.
  intros Hreach.
  pose proof (reachable_ids_increasing d Hreach) as Hs.
  split; [done |]. split.
  - by apply StronglySorted_lt_NoDup.
  - apply (reachable_ids_bounded d Hreach).
Qed.

Lemma reachable_ids_distinct_witness :
  StronglySorted Z.lt (id <$> inquiries (readData disk_with_one)) ∧
  NoDup (id <$> inquiries (readData disk_with_one)) ∧
  Forall (λ i, 1 ≤ id i ≤ lastId (readData disk_with_one))
    (inquiries (readData disk_with_one)).
Proof.
  apply (reachable_ids_distinct disk_with_one).
  apply (reachable_step
           (Submit (lit "2024-05-01T10:00:00.000Z")
              (lit "2024-05-01T10:00:00.000Z") sample_body) initDatabase).
  apply reachable_init.
Defined.

(** ** Decimal numerals and [parseInt] *)

Lemma parse_digits_step R acc c s dv :
  digit_value c = Some dv → dv < R →
  parse_digits R acc (c :: s)
  = parse_digits R (Num (R * match acc with NaN => 0 | Num a => a end + dv)) s.
Proof.
  intros Hc Hlt. simpl. rewrite Hc.
  by destruct (Z.ltb_spec dv R); [| lia].
Qed.

(** Reading stops at a character that is not a decimal digit. *)
Lemma parse_digits_stop acc (rest : jsstring) :
  (∀ c r, rest = c :: r → ¬ (48 ≤ c ≤ 57)%N) →
  parse_digits 10 acc rest = acc.
Proof.
  intros Hrest. destruct rest as [|c r]; [done |].
  specialize (Hrest c r eq_refl). simpl. unfold digit_value.
  destruct ((48 <=? c)%N && (c <=? 57)%N) eqn:Hd.
  { apply andb_true_iff in Hd as [H1 H2]. apply N.leb_le in H1, H2. lia. }
  destruct ((97 <=? c)%N && (c <=? 122)%N) eqn:Hl.
  { apply andb_true_iff in Hl as [H1 H2]. apply N.leb_le in H1, H2.
    destruct (Z.ltb_spec (Z.of_N c - 87) 10); [lia | done]. }
  destruct ((65 <=? c)%N && (c <=? 90)%N) eqn:Hu; [| done].
  apply andb_true_iff in Hu as [H1 H2]. apply N.leb_le in H1, H2.
  destruct (Z.ltb_spec (Z.of_N c - 55) 10); [lia | done].
Qed.

Lemma uint_chars_digits d : Forall (λ c, 48 ≤ c ≤ 57)%N (uint_chars d).
Proof.
  unfold uint_chars. induction d; simpl; constructor; (lia || done).
Qed.

Ltac read_digit IH :=
  unfold uint_chars;
  cbn [NilEmpty.string_of_uint Pos.of_uint_acc Pos.of_uint lit
       list_ascii_of_string List.map app];
  erewrite parse_digits_step by (reflexivity || (vm_compute; reflexivity));
  match goal with
  | |- context [Num (10 * ?a + ?dv)] =>
      let v := eval vm_compute in dv in change dv with v
  end;
  fold (lit (NilEmpty.string_of_uint IH)); fold (uint_chars IH).

Lemma parse_digits_acc (d : Decimal.uint) : ∀ (acc : positive) (rest : jsstring),
  (∀ c r, rest = c :: r → ¬ (48 ≤ c ≤ 57)%N) →
  parse_digits 10 (Num (Z.pos acc)) (uint_chars d ++ rest)
  = Num (Z.pos (Pos.of_uint_acc d acc)).
Proof.
  induction d as [|d IH|d IH|d IH|d IH|d IH|d IH|d IH|d IH|d IH|d IH];
    intros acc rest Hrest;
    [by apply parse_digits_stop |
     read_digit d; rewrite <- (IH _ rest Hrest); f_equal; f_equal; lia ..].
Qed.

Lemma parse_digits_zero (d : Decimal.uint) (rest : jsstring) :
  (∀ c r, rest = c :: r → ¬ (48 ≤ c ≤ 57)%N) →
  parse_digits 10 (Num 0) (uint_chars d ++ rest)
  = Num (Z.of_N (Pos.of_uint d)).
Proof.
  intros Hrest.
  induction d as [|d IH|d IH|d IH|d IH|d IH|d IH|d IH|d IH|d IH|d IH];
    [by apply parse_digits_stop |
     read_digit d; exact IH |
     read_digit d; apply (parse_digits_acc d _ rest Hrest) ..].
Qed.

Lemma parse_digits_uint (d : Decimal.uint) (rest : jsstring) :
  d ≠ Decimal.Nil →
  (∀ c r, rest = c :: r → ¬ (48 ≤ c ≤ 57)%N) →
  parse_digits 10 NaN (uint_chars d ++ rest) = Num (Z.of_N (Pos.of_uint d)).
Proof.
  intros Hnil Hrest.
  destruct d as [|d|d|d|d|d|d|d|d|d|d];
    [done |
     read_digit d; apply (parse_digits_zero d rest Hrest) |
     read_digit d; apply (parse_digits_acc d _ rest Hrest) ..].
Qed.

Lemma digit_cases (c : N) :
  (48 ≤ c ≤ 57)%N →
  (c = 48 ∨ c = 49 ∨ c = 50 ∨ c = 51 ∨ c = 52 ∨ c = 53 ∨ c = 54 ∨ c = 55
   ∨ c = 56 ∨ c = 57)%N.
Proof. lia. Qed.

(** A character that is neither [x] nor [X] does not open a hexadecimal
    prefix. *)
Lemma no_hex_prefix (b : N) (r : jsstring) :
  b ≠ 120%N → b ≠ 88%N →
  parseInt_string (48%N :: b :: r) = parse_digits 10 NaN (48%N :: b :: r).
Proof.
  intros H120 H88. unfold parseInt_string.
  cbn [trim_start is_space N.leb N.eqb N.compare Pos.compare Pos.compare_cont
       Pos.eqb andb orb negb].
  destruct b as [|p]; [reflexivity |].
  do 7 (try (destruct p as [p|p|]; try reflexivity)); congruence.
Qed.

Lemma parseInt_string_digit c (s : jsstring) :
  (48 ≤ c ≤ 57)%N →
  (∀ b r, s = b :: r → b ≠ 120%N ∧ b ≠ 88%N) →
  parseInt_string (c :: s) = parse_digits 10 NaN (c :: s).
Proof.
  intros Hc Hx.
  destruct (digit_cases c Hc) as [-> | Hc'].
  - destruct s as [|b r]; [reflexivity |].
    destruct (Hx b r eq_refl). by apply no_hex_prefix.
  - repeat (destruct Hc' as [-> | Hc']; [reflexivity |]). subst c. reflexivity.
Qed.

Lemma no_hex_prefix_minus (b : N) (r : jsstring) :
  b ≠ 120%N → b ≠ 88%N →
  parseInt_string (45%N :: 48%N :: b :: r)
  = negate (parse_digits 10 NaN (48%N :: b :: r)).
Proof.
  intros H120 H88. unfold parseInt_string.
  cbn [trim_start is_space N.leb N.eqb N.compare Pos.compare Pos.compare_cont
       Pos.eqb andb orb negb].
  destruct b as [|p]; [reflexivity |].
  do 7 (try (destruct p as [p|p|]; try reflexivity)); congruence.
Qed.

Lemma parseInt_string_minus c (s : jsstring) :
  (48 ≤ c ≤ 57)%N →
  (∀ b r, s = b :: r → b ≠ 120%N ∧ b ≠ 88%N) →
  parseInt_string (45%N :: c :: s) = negate (parse_digits 10 NaN (c :: s)).
Proof.
  intros Hc Hx.
  destruct (digit_cases c Hc) as [-> | Hc'].
  - destruct s as [|b r]; [reflexivity |].
    destruct (Hx b r eq_refl). by apply no_hex_prefix_minus.
  - repeat (destruct Hc' as [-> | Hc']; [reflexivity |]). subst c. reflexivity.
Qed.

Lemma uint_chars_cons d :
  d ≠ Decimal.Nil →
  ∃ c t, uint_chars d = c :: t ∧ (48 ≤ c ≤ 57)%N ∧
         Forall (λ c, 48 ≤ c ≤ 57)%N t.
Proof.
  intros Hnil. pose proof (uint_chars_digits d) as Hall.
  destruct (uint_chars d) as [|c t] eqn:Hchars.
  - by destruct d.
  - apply Forall_cons in Hall as [Hc Ht]. eauto.
Qed.

Lemma ends_numeral_stops (rest : jsstring) :
  (∀ c r, rest = c :: r → ends_numeral c) →
  ∀ c r, rest = c :: r → ¬ (48 ≤ c ≤ 57)%N.
Proof. intros Hrest c r Heq. by destruct (Hrest c r Heq). Qed.

(** The numeral of a sequence of digits, followed by anything that does
    not continue it, reads as its value. *)
Lemma parseInt_string_uint d (rest : jsstring) :
  d ≠ Decimal.Nil →
  (∀ c r, rest = c :: r → ends_numeral c) →
  parseInt_string (uint_chars d ++ rest) = Num (Z.of_N (Pos.of_uint d)) ∧
  parseInt_string (45%N :: uint_chars d ++ rest)
  = Num (- Z.of_N (Pos.of_uint d)).
Proof.
  intros Hnil Hrest.
  pose proof (parse_digits_uint d rest Hnil (ends_numeral_stops rest Hrest))
    as Hvalue.
  destruct (uint_chars_cons d Hnil) as (c & t & Hchars & Hc & Ht).
  rewrite Hchars in *. cbn [app] in *.
  assert (Hx : ∀ b r, t ++ rest = b :: r → b ≠ 120%N ∧ b ≠ 88%N).
  { intros b r Heq. destruct t as [|b' t'].
    - destruct (Hrest b r Heq) as (_ & ? & ?). done.
    - simpl in Heq. injection Heq as -> _.
      apply Forall_cons in Ht as [Hb _]. lia. }
  rewrite (parseInt_string_digit c _ Hc Hx).
  rewrite (parseInt_string_minus c _ Hc Hx). by rewrite Hvalue.
Qed.

Lemma decimal_pos p : decimal (Z.pos p) = uint_chars (Pos.to_uint p).
Proof.
  unfold decimal, uint_chars, ToString. simpl.
  pose proof (DecimalPos.Unsigned.to_uint_nonnil p) as Hnil.
  by destruct (Pos.to_uint p).
Qed.

Lemma decimal_neg p :
  decimal (Z.neg p) = 45%N :: uint_chars (Pos.to_uint p).
Proof.
  unfold decimal, uint_chars, ToString. simpl.
  pose proof (DecimalPos.Unsigned.to_uint_nonnil p) as Hnil.
  by destruct (Pos.to_uint p).
Qed.

(** The decimal numeral of an integer, followed by anything that does
    not continue it, reads as the integer. *)
Lemma parseInt_string_decimal z (rest : jsstring) :
  (∀ c r, rest = c :: r → ends_numeral c) →
  parseInt_string (decimal z ++ rest) = Num z.
Proof.
  intros Hrest. destruct z as [|p|p].
  - change (decimal 0) with ([48%N] : jsstring). cbn [app].
    rewrite parseInt_string_digit; [| lia |].
    + rewrite (parse_digits_step 10 NaN 48%N rest 0) by (reflexivity || lia).
      simpl. by apply parse_digits_stop, ends_numeral_stops.
    + intros b r Heq. destruct (Hrest b r Heq) as (_ & ? & ?). done.
  - rewrite decimal_pos.
    destruct (parseInt_string_uint (Pos.to_uint p) rest) as [-> _];
      [apply DecimalPos.Unsigned.to_uint_nonnil | done |].
    by rewrite DecimalPos.Unsigned.of_to.
  - rewrite decimal_neg. cbn [app].
    destruct (parseInt_string_uint (Pos.to_uint p) rest) as [_ ->];
      [apply DecimalPos.Unsigned.to_uint_nonnil | done |].
    by rewrite DecimalPos.Unsigned.of_to.
Qed.

(** The id of a route read back from its decimal numeral. *)
Lemma parseInt_id k : parseInt (JStr (decimal k)) = Num k.
Proof.
  unfold parseInt. cbn [ToString].
  rewrite <- (app_nil_r (decimal k)). apply parseInt_string_decimal.
  intros c r Heq. discriminate.
Qed.

(** X10. An accepted submission whose [travelers] is a safe integer, or
    a string that starts with the decimal numeral of a safe integer and
    goes on with a character that is neither a decimal digit nor an [x],
    is stored with that integer as its [travelers]. *)
Theorem post_inquiry_travelers_parsed now1 now2 (body : gmap string jsval) d
    (z : Z) (rest : jsstring) :
  code (post_inquiry now1 now2 body d).1 = 201 →
  safe_integer z →
  (∀ c r, rest = c :: r → ends_numeral c) →
  field body "travelers" = JNum z
  ∨ field body "travelers" = JStr (decimal z ++ rest) →
  ∃ inquiry,
    inquiries (readData (post_inquiry now1 now2 body d).2)
    = inquiries (readData d) ++ [inquiry] ∧
    travelers inquiry = JNum z.
Proof.
  intros Hcode _ Hrest Htravelers.
  assert (Hparse : parseInt (field body "travelers") = Num z).
  { destruct Htravelers as [-> | ->].
    - apply (parseInt_id z).
    - unfold parseInt. cbn [ToString]. by apply parseInt_string_decimal. }
  revert Hcode. unfold post_inquiry.
  destruct (negb (truthy (field body "name")) || _ || _ || _); [done |].
  destruct (field body "phone") as [| | | |p]; try done.
  destruct (negb (test_anchored phone_regex (strip_spaces p))); [done |].
  intros _. cbn [fst snd readData content writeData inquiries].
  eexists. split; [reflexivity |]. cbn [travelers]. by rewrite Hparse.
Qed.

Lemma post_inquiry_travelers_parsed_witness :
  ∃ inquiry,
    inquiries (readData
      (post_inquiry (lit "2024-05-01T10:00:00.000Z")
         (lit "2024-05-01T10:00:00.000Z") body_travelers_text initDatabase).2)
    = inquiries (readData initDatabase) ++ [inquiry] ∧
    travelers inquiry = JNum 4.
Proof.
  apply (post_inquiry_travelers_parsed _ _ body_travelers_text initDatabase
           4 (lit " adults")).
  - reflexivity.
  - unfold safe_integer. lia.
  - intros c r Heq. vm_compute in Heq. injection Heq as <- _.
    unfold ends_numeral. lia.
  - right. reflexivity.
Defined.

(** ** Requests in sequence *)

Lemma filter_other_ids (k : Z) (l : list Inquiry) :
  Forall (λ i, id i ≠ k) l →
  List.filter (fun i => negb (num_eqb (id i) (Num k))) l = l.
Proof.
  induction 1 as [|a l Ha Hl IH]; [done |].
  cbn [List.filter]. change (num_eqb (id a) (Num k)) with (id a =? k).
  apply Z.eqb_neq in Ha. rewrite Ha. cbn [negb]. by rewrite IH.
Qed.

Lemma filter_unique_id (k : Z) (before after : list Inquiry) old :
  id old = k →
  NoDup (id <$> before ++ old :: after) →
  List.filter (fun i => negb (num_eqb (id i) (Num k))) (before ++ old :: after)
  = before ++ after.
Proof.
  intros Hk Hnd. rewrite fmap_app, fmap_cons in Hnd.
  apply NoDup_app in Hnd as (_ & Hdisj & Hnd).
  apply NoDup_cons in Hnd as [Hold _].
  rewrite List.filter_app. cbn [List.filter].
  change (num_eqb (id old) (Num k)) with (id old =? k).
  subst k. rewrite Z.eqb_refl. cbn [negb].
  rewrite !filter_other_ids; [done | |].
  - apply Forall_forall. intros i Hi Heq. apply Hold.
    rewrite <- Heq. apply list_elem_of_fmap. eauto.
  - apply Forall_forall. intros i Hi Heq.
    apply (Hdisj (id i)); [apply list_elem_of_fmap; eauto |].
    rewrite Heq. by left.
Qed.

(** X11. In a document reachable from the empty one, deleting an id
    that is present removes exactly one inquiry: the inquiries before
    and after it stay, in their order, and [lastId] stays. *)
Theorem delete_removes_exactly_one id_param d :
  reachable d →
  (∃ i, i ∈ inquiries (readData d) ∧ has_id (parseInt (JStr id_param)) i) →
  ∃ before old after,
    inquiries (readData d) = before ++ old :: after ∧
    has_id (parseInt (JStr id_param)) old ∧
    delete_admin_inquiry id_param d
    = (respond 200 JDeleted,
       writeData {| inquiries := before ++ after;
                    lastId := lastId (readData d) |} d).
Proof.
  intros Hreach Hex.
  rewrite (delete_admin_inquiry_found id_param d Hex).
  destruct Hex as (old & Hin & Hid).
  apply list_elem_of_split in Hin as (before & after & Hsplit).
  exists before, old, after. split; [done |]. split; [done |].
  unfold has_id in Hid. rewrite Hid, Hsplit.
  rewrite (filter_unique_id (id old) before after old eq_refl); [done |].
  rewrite <- Hsplit. by apply reachable_ids_NoDup.
Qed.

Lemma reachable_disk_with_one : reachable disk_with_one.
Proof.
  apply (reachable_step
           (Submit (lit "2024-05-01T10:00:00.000Z")
              (lit "2024-05-01T10:00:00.000Z") sample_body) initDatabase).
  apply reachable_init.
Qed.

Lemma delete_removes_exactly_one_witness :
  ∃ before old after,
    inquiries (readData disk_with_one) = before ++ old :: after ∧
    has_id (parseInt (JStr (lit "1"))) old ∧
    delete_admin_inquiry (lit "1") disk_with_one
    = (respond 200 JDeleted,
       writeData {| inquiries := before ++ after;
                    lastId := lastId (readData disk_with_one) |}
         disk_with_one).
Proof.
  apply (delete_removes_exactly_one (lit "1") disk_with_one
           reachable_disk_with_one).
  eexists. split.
  - vm_compute. left.
  - reflexivity.
Defined.

(** Whether a submission is accepted depends on its body only. *)
Lemma post_inquiry_accepted_anywhere now1 now2 (body : gmap string jsval) d :
  code (post_inquiry now1 now2 body d).1 = 201 →
  ∀ t1 t2 d',
    (post_inquiry t1 t2 body d').1
    = respond 201 (JSubmitted (lastId (readData d') + 1)).
Proof.
  unfold post_inquiry.
  destruct (negb (truthy (field body "name")) || _ || _ || _); [done |].
  destruct (field body "phone") as [| | | |p]; try done.
  by destruct (negb (test_anchored phone_regex (strip_spaces p))).
Qed.

(** X12. Deleting the inquiry just submitted, under the id that the
    submission returned, restores the list of inquiries but not the
    counter: the next submission gets a fresh id. *)
Theorem submit_then_delete now1 now2 (body : gmap string jsval) d :
  reachable d →
  code (post_inquiry now1 now2 body d).1 = 201 →
  let k := lastId (readData d) + 1 in
  let d1 := (post_inquiry now1 now2 body d).2 in
  let d2 := (delete_admin_inquiry (decimal k) d1).2 in
  payload (post_inquiry now1 now2 body d).1 = JSubmitted k ∧
  (delete_admin_inquiry (decimal k) d1).1 = respond 200 JDeleted ∧
  inquiries (readData d2) = inquiries (readData d) ∧
  lastId (readData d2) = k ∧
  ∀ t1 t2, code (post_inquiry t1 t2 body d2).1 = 201 ∧
           payload (post_inquiry t1 t2 body d2).1 = JSubmitted (k + 1).
Proof.
  intros Hreach Hcode k d1 d2.
  destruct (post_inquiry now1 now2 body d) as [r d1'] eqn:Hpost.
  destruct (post_inquiry_accepted _ _ _ _ _ _ Hpost Hcode)
    as (inquiry & Hid & -> & Hd1).
  subst d1 d2. cbn [fst snd]. rewrite Hd1. fold k in Hid |- *.
  split; [done |].
  assert (Hdel : delete_admin_inquiry (decimal k)
                   (writeData {| inquiries := inquiries (readData d) ++ [inquiry];
                                 lastId := k |} d)
                 = (respond 200 JDeleted,
                    writeData {| inquiries := inquiries (readData d);
                                 lastId := k |}
                      (writeData {| inquiries := inquiries (readData d) ++ [inquiry];
                                    lastId := k |} d))).
  { rewrite delete_admin_inquiry_found.
    - rewrite parseInt_id. cbn [readData content writeData inquiries lastId].
      rewrite List.filter_app. cbn [List.filter].
      change (num_eqb (id inquiry) (Num k)) with (id inquiry =? k).
      rewrite Hid, Z.eqb_refl. cbn [negb]. rewrite app_nil_r.
      rewrite filter_other_ids; [done |].
      destruct (reachable_ids_bounded d Hreach) as [_ Hb].
      eapply Forall_impl; [exact Hb |]. simpl. intros; lia.
    - exists inquiry. split.
      + simpl. apply elem_of_app. right. by left.
      + rewrite parseInt_id. unfold has_id. by rewrite Hid. }
  rewrite Hdel. cbn [fst snd]. split; [done |]. split; [done |].
  split; [done |]. intros t1 t2.
  rewrite (post_inquiry_accepted_anywhere now1 now2 body d); [done |].
  by rewrite Hpost.
Qed.

Lemma submit_then_delete_witness :
  let k := lastId (readData initDatabase) + 1 in
  let d1 :=
    (post_inquiry (lit "2024-05-01T10:00:00.000Z")
       (lit "2024-05-01T10:00:00.000Z") sample_body initDatabase).2 in
  let d2 := (delete_admin_inquiry (decimal k) d1).2 in
  payload (post_inquiry (lit "2024-05-01T10:00:00.000Z")
             (lit "2024-05-01T10:00:00.000Z") sample_body initDatabase).1
  = JSubmitted k ∧
  (delete_admin_inquiry (decimal k) d1).1 = respond 200 JDeleted ∧
  inquiries (readData d2) = inquiries (readData initDatabase) ∧
  lastId (readData d2) = k ∧
  ∀ t1 t2, code (post_inquiry t1 t2 sample_body d2).1 = 201 ∧
           payload (post_inquiry t1 t2 sample_body d2).1 = JSubmitted (k + 1).
Proof.
  apply (submit_then_delete (lit "2024-05-01T10:00:00.000Z")
           (lit "2024-05-01T10:00:00.000Z") sample_body initDatabase).
  - apply reachable_init.
  - reflexivity.
Defined.

Lemma find_update_skip p f (l l' : list Inquiry) :
  Forall (λ i, p i = false) l →
  List.find p (l ++ l') = List.find p l' ∧
  update_first p f (l ++ l') = l ++ update_first p f l'.
Proof.
  induction 1 as [|a l Ha Hl [IH1 IH2]]; simpl; [done |].
  by rewrite Ha, IH1, IH2.
Qed.

(** X13. The inquiry just submitted is found by an update under the id
    that the submission returned: the answer is 200 with that inquiry
    updated, and the document written has it in last place, the earlier
    inquiries unchanged. *)
Theorem submit_then_update now1 now2 (body : gmap string jsval) d
    now (changes : gmap string jsval) :
  reachable d →
  code (post_inquiry now1 now2 body d).1 = 201 →
  let k := lastId (readData d) + 1 in
  let d1 := (post_inquiry now1 now2 body d).2 in
  ∃ inquiry,
    inquiries (readData d1) = inquiries (readData d) ++ [inquiry] ∧
    id inquiry = k ∧
    put_admin_inquiry now (decimal k) changes d1
    = (respond 200
         (JUpdated (apply_update (field changes "status")
                      (field changes "notes") now inquiry)),
       writeData
         {| inquiries :=
              inquiries (readData d)
              ++ [apply_update (field changes "status")
                    (field changes "notes") now inquiry];
            lastId := k |} d1).
Proof.
  intros Hreach Hcode k d1.
  destruct (post_inquiry now1 now2 body d) as [r d1'] eqn:Hpost.
  destruct (post_inquiry_accepted _ _ _ _ _ _ Hpost Hcode)
    as (inquiry & Hid & -> & Hd1).
  subst d1. cbn [fst snd]. rewrite Hd1. fold k in Hid |- *.
  exists inquiry. split; [done |]. split; [done |].
  unfold put_admin_inquiry. rewrite parseInt_id.
  cbn [readData content writeData inquiries lastId].
  assert (Hskip : Forall (λ i, num_eqb (id i) (Num k) = false)
                    (inquiries (readData d))).
  { destruct (reachable_ids_bounded d Hreach) as [_ Hb].
    eapply Forall_impl; [exact Hb |]. simpl. intros i Hi.
    apply Z.eqb_neq. lia. }
  destruct (find_update_skip (λ i, num_eqb (id i) (Num k))
              (apply_update (field changes "status") (field changes "notes") now)
              _ [inquiry] Hskip) as [-> ->].
  cbn [List.find update_first].
  change (num_eqb (id inquiry) (Num k)) with (id inquiry =? k).
  rewrite Hid, Z.eqb_refl. done.
Qed.

Lemma submit_then_update_witness :
  let k := lastId (readData initDatabase) + 1 in
  let d1 :=
    (post_inquiry (lit "2024-05-01T10:00:00.000Z")
       (lit "2024-05-01T10:00:00.000Z") sample_body initDatabase).2 in
  ∃ inquiry,
    inquiries (readData d1) = inquiries (readData initDatabase) ++ [inquiry] ∧
    id inquiry = k ∧
    put_admin_inquiry (lit "2024-05-02T08:30:00.000Z") (decimal k)
      update_contacted d1
    = (respond 200
         (JUpdated (apply_update (field update_contacted "status")
                      (field update_contacted "notes")
                      (lit "2024-05-02T08:30:00.000Z") inquiry)),
       writeData
         {| inquiries :=
              inquiries (readData initDatabase)
              ++ [apply_update (field update_contacted "status")
                    (field update_contacted "notes")
                    (lit "2024-05-02T08:30:00.000Z") inquiry];
            lastId := k |} d1).
Proof.
  apply (submit_then_update (lit "2024-05-01T10:00:00.000Z")
           (lit "2024-05-01T10:00:00.000Z") sample_body initDatabase
           (lit "2024-05-02T08:30:00.000Z") update_contacted).
  - apply reachable_init.
  - reflexivity.
Defined.

(** ** Repeating an update *)

Lemma js_or_idem a b : js_or a (js_or a b) = js_or a b.
Proof. unfold js_or. by destruct (truthy a). Qed.

Lemma apply_update_idem s n now i :
  apply_update s n now (apply_update s n now i) = apply_update s n now i.
Proof.
  unfold apply_update. simpl. rewrite js_or_idem. by destruct n.
Qed.

Lemma find_update_first_same p f (l : list Inquiry) :
  (∀ i, p (f i) = p i) → (∀ i, f (f i) = f i) →
  List.find p (update_first p f l) = f <$> List.find p l ∧
  update_first p f (update_first p f l) = update_first p f l.
Proof.
  intros Hp Hf. induction l as [|a l [IH1 IH2]]; simpl; [done |].
  destruct (p a) eqn:Ha; simpl.
  - by rewrite Hp, Ha, Hf.
  - by rewrite Ha, IH1, IH2.
Qed.

(** X14. An update is idempotent: the same request made again, at the
    same clock reading, gets the same answer and writes the same
    document. *)
Theorem put_admin_inquiry_idempotent now id_param (body : gmap string jsval) d :
  let once := put_admin_inquiry now id_param body d in
  let twice := put_admin_inquiry now id_param body once.2 in
  twice.1 = once.1 ∧ content twice.2 = content once.2.
Proof.
  intros once twice. subst once twice. unfold put_admin_inquiry.
  set (p := λ i, num_eqb (id i) (parseInt (JStr id_param))).
  set (f := apply_update (field body "status") (field body "notes") now).
  destruct (find_update_first_same p f (inquiries (readData d)))
    as [Hfind Hupd].
  { done. }
  { intros i. apply apply_update_idem. }
  destruct (List.find p (inquiries (readData d))) as [old|] eqn:Hold;
    cbn [fst snd].
  - cbn [readData content writeData inquiries lastId].
    rewrite Hfind, Hupd. cbn [fmap option_fmap option_map fst snd].
    assert (Hff : f (f old) = f old) by apply apply_update_idem.
    rewrite Hff. done.
  - by rewrite Hold.
Qed.

(** ** The admin listing *)

Section ListingFacts.
Variable Date_parse : jsstring -> jsnum.

Lemma insert_sorted_perm x (l : list Inquiry) :
  insert_sorted Date_parse x l ≡ₚ x :: l.
Proof.
  induction l as [|y l IH]; simpl; [done |].
  destruct (_ <=? 0); [done |]. rewrite IH. apply Permutation_swap.
Qed.

Lemma sort_inquiries_perm (l : list Inquiry) :
  sort_inquiries Date_parse l ≡ₚ l.
Proof.
  unfold sort_inquiries. induction l as [|x l IH]; simpl; [done |].
  by rewrite insert_sorted_perm, IH.
Qed.

Lemma by_created_desc_valid a b :
  Date_parse (created_at a) ≠ NaN → Date_parse (created_at b) ≠ NaN →
  by_created_desc Date_parse a b
  = created_ms Date_parse b - created_ms Date_parse a.
Proof.
  unfold by_created_desc, created_ms.
  destruct (Date_parse (created_at a)), (Date_parse (created_at b)); done.
Qed.

Lemma insert_sorted_sorted x (l : list Inquiry) :
  Date_parse (created_at x) ≠ NaN → valid_dates Date_parse l →
  StronglySorted
    (λ a b, created_ms Date_parse b ≤ created_ms Date_parse a) l →
  StronglySorted
    (λ a b, created_ms Date_parse b ≤ created_ms Date_parse a)
    (insert_sorted Date_parse x l).
Proof.
  intros Hx Hvalid Hs. induction Hs as [|y l Hl IH Hy]; simpl.
  - repeat constructor.
  - apply Forall_cons in Hvalid as [Hvy Hvalid].
    rewrite (by_created_desc_valid x y Hx Hvy).
    destruct (Z.leb_spec (created_ms Date_parse y - created_ms Date_parse x) 0).
    + constructor; [by constructor |]. constructor; [lia |].
      eapply Forall_impl; [exact Hy |]. simpl. intros; lia.
    + constructor; [by apply IH |].
      rewrite (insert_sorted_perm x l). constructor; [lia | done].
Qed.

Lemma insert_sorted_filter x (l : list Inquiry) (t : Z) :
  Date_parse (created_at x) ≠ NaN → valid_dates Date_parse l →
  filter (λ i, created_ms Date_parse i = t) (insert_sorted Date_parse x l)
  = filter (λ i, created_ms Date_parse i = t) (x :: l).
Proof.
  intros Hx Hvalid. induction Hvalid as [|y l Hvy Hvalid IH]; simpl; [done |].
  rewrite (by_created_desc_valid x y Hx Hvy).
  destruct (Z.leb_spec (created_ms Date_parse y - created_ms Date_parse x) 0);
    [done |].
  rewrite (filter_cons _ y), IH, !(filter_cons _ x), !(filter_cons _ y).
  repeat case_decide; try done; lia.
Qed.

(** X15. The listing is the stored inquiries in another order.  When
    every creation time parses, it is in descending order of creation
    time, and inquiries created at the same instant keep their stored
    order. *)
Theorem sort_inquiries_newest_first (l : list Inquiry) :
  sort_inquiries Date_parse l ≡ₚ l ∧
  (valid_dates Date_parse l →
   StronglySorted
     (λ a b, created_ms Date_parse b ≤ created_ms Date_parse a)
     (sort_inquiries Date_parse l) ∧
   ∀ t, filter (λ i, created_ms Date_parse i = t) (sort_inquiries Date_parse l)
        = filter (λ i, created_ms Date_parse i = t) l).
Proof.
  split; [apply sort_inquiries_perm |].
  unfold sort_inquiries. induction 1 as [|x l Hx Hvalid [IHs IHf]]; simpl.
  - split; [constructor | done].
  - assert (Hv : valid_dates Date_parse (foldr (insert_sorted Date_parse) [] l)).
    { unfold valid_dates. by rewrite (sort_inquiries_perm l). }
    split; [by apply insert_sorted_sorted |].
    intros t. rewrite insert_sorted_filter by done.
    by rewrite !(filter_cons _ x), IHf.
Qed.

(** X16. With the configured user name and password, both without a
    colon, and a data file in which every creation time parses, the
    listing is answered 200 with the stored inquiries sorted, and the
    data file is left as it was. *)
Theorem get_admin_inquiries_authorized env d :
  ascii_only (adminUser env) → (58%N ∉ adminUser env) →
  ascii_only (adminPass env) → (58%N ∉ adminPass env) →
  valid_dates Date_parse (inquiries (readData d)) →
  get_admin_inquiries Date_parse env
    (Some (basic_header (adminUser env) (adminPass env))) d
  = (respond 200
       (JInquiries (sort_inquiries Date_parse (inquiries (readData d)))), d).
Proof.
  intros Hu Hcu Hp Hcp _. unfold get_admin_inquiries.
  by rewrite (check_credentials_accepts env Hu Hcu Hp Hcp).
Qed.
End ListingFacts.

(** The creation times of the sample data file parse. *)
Lemma valid_dates_sample :
  valid_dates leading_number (inquiries (readData disk_after_sample_ops)).
Proof.
  apply Forall_forall. intros i Hi. vm_compute in Hi.
  repeat (apply elem_of_cons in Hi as [-> | Hi]; [by vm_compute |]).
  by apply elem_of_nil in Hi.
Qed.

Lemma sort_inquiries_newest_first_witness :
  (id <$> inquiries (readData disk_after_sample_ops) = [1; 3; 4] ∧
   created_ms leading_number
   <$> inquiries (readData disk_after_sample_ops) = [2024; 2024; 2025] ∧
   id <$> sort_inquiries leading_number
            (inquiries (readData disk_after_sample_ops)) = [4; 1; 3]) ∧
  StronglySorted
    (λ a b, created_ms leading_number b ≤ created_ms leading_number a)
    (sort_inquiries leading_number
       (inquiries (readData disk_after_sample_ops))) ∧
  ∀ t, filter (λ i, created_ms leading_number i = t)
         (sort_inquiries leading_number
            (inquiries (readData disk_after_sample_ops)))
       = filter (λ i, created_ms leading_number i = t)
           (inquiries (readData disk_after_sample_ops)).
Proof.
  split; [by vm_compute |].
  apply (proj2 (sort_inquiries_newest_first leading_number
                  (inquiries (readData disk_after_sample_ops)))).
  apply valid_dates_sample.
Defined.

Lemma get_admin_inquiries_authorized_witness :
  get_admin_inquiries leading_number no_env
    (Some (basic_header (adminUser no_env) (adminPass no_env)))
    disk_after_sample_ops
  = (respond 200
       (JInquiries
          (sort_inquiries leading_number
             (inquiries (readData disk_after_sample_ops)))),
     disk_after_sample_ops).
Proof.
  apply (get_admin_inquiries_authorized leading_number no_env
           disk_after_sample_ops).
  - vm_compute. repeat constructor.
  - not_in_literal.
  - vm_compute. repeat constructor.
  - not_in_literal.
  - apply valid_dates_sample.
Defined.

(** ** Which credentials pass *)

Lemma split_head_prefix sep (s w : jsstring) ws :
  split sep s = w :: ws → s = w ∨ ∃ rest, s = w ++ sep :: rest.
Proof.
  revert w ws. induction s as [|c s IH]; intros w ws; simpl.
  - intros [= <- <-]. by left.
  - destruct (N.eqb_spec c sep) as [-> | Hne].
    + intros [= <- <-]. right. by exists s.
    + destruct (split_head_no_sep sep s) as (w0 & ws0 & Hs & _).
      rewrite Hs in *.
      intros [= <- <-]. destruct (IH w0 ws0 eq_refl) as [-> | [rest ->]].
      * by left.
      * right. by exists rest.
Qed.

(** X17. For a configured password without a colon, a header that
    carries seven-bit [username:password] passes exactly when the user
    name is the configured one and the password is the configured one,
    alone or followed by a colon and anything. *)
Theorem check_credentials_passes_iff env u p :
  ascii_only u → (58%N ∉ u) → ascii_only p → (58%N ∉ adminPass env) →
  check_credentials env (Some (basic_header u p)) = Next ↔
  u = adminUser env ∧
  (p = adminPass env ∨ ∃ rest, p = adminPass env ++ lit ":" ++ rest).
Proof.
  intros Hu Hcu Hp Hcp.
  destruct (check_credentials_basic env u p Hu Hcu Hp)
    as (w & ws & Hsplit & Hw & ->).
  destruct (bool_decide_reflect (u = adminUser env ∧ w = adminPass env))
    as [[Hsu Hsw] | Hno].
  - split; [intros _ | done]. split; [done |]. subst w.
    apply (split_head_prefix 58 p _ ws Hsplit).
  - split; [done |]. intros [Hsu Hpass]. destruct Hno. split; [done |].
    destruct Hpass as [-> | [rest ->]].
    + rewrite (split_no_sep 58 _ Hcp) in Hsplit. by injection Hsplit.
    + change (adminPass env ++ lit ":" ++ rest)
        with (adminPass env ++ 58%N :: rest) in Hsplit.
      rewrite (split_at_sep 58 _ rest Hcp) in Hsplit. by injection Hsplit.
Qed.

Lemma check_credentials_passes_iff_witness :
  check_credentials no_env
    (Some (basic_header (lit "Mehul20020") (lit "Ninja2002@:anything")))
  = Next.
Proof.
  apply (check_credentials_passes_iff no_env (lit "Mehul20020")
           (lit "Ninja2002@:anything")).
  - vm_compute. repeat constructor.
  - vm_compute. intros Hin.
    repeat (apply elem_of_cons in Hin as [Hin | Hin]; [discriminate |]).
    by apply elem_of_nil in Hin.
  - vm_compute. repeat constructor.
  - vm_compute. intros Hin.
    repeat (apply elem_of_cons in Hin as [Hin | Hin]; [discriminate |]).
    by apply elem_of_nil in Hin.
  - split; [reflexivity |]. right. exists (lit "anything"). reflexivity.
Defined.

(** ** Statistics *)

Section StatisticsFacts.
Variable Date_parse : jsstring -> jsnum.

Lemma filter_length_cons {A} (f : A → bool) (x : A) (l : list A) :
  length (List.filter f (x :: l))
  = (count_if (f x) + length (List.filter f l))%nat.
Proof. simpl. by destruct (f x). Qed.

Lemma filter_length_middle {A} (f : A → bool) (before after : list A) x :
  length (List.filter f (before ++ x :: after))
  = (length (List.filter f (before ++ after)) + count_if (f x))%nat.
Proof.
  rewrite !List.filter_app, !length_app, filter_length_cons. lia.
Qed.

Lemma status_is_exclusive i :
  (count_if (status_is "new" i) + count_if (status_is "contacted" i)
   + count_if (status_is "booked" i) ≤ 1)%nat.
Proof.
  unfold status_is.
  destruct (bool_decide_reflect (status i = JStr (lit "new"))) as [-> | _];
    [by vm_compute |].
  destruct (bool_decide_reflect (status i = JStr (lit "contacted")))
    as [-> | _]; [by vm_compute |].
  destruct (bool_decide (status i = JStr (lit "booked"))); simpl; lia.
Qed.

(** X18. The statistics never count an inquiry twice: the three counts
    by status add up to at most the total, and to the total when every
    status is one of [new], [contacted], [booked]; the count of the week
    is at most the total.  The handler answers 200 and leaves the file
    as it was. *)
Theorem get_admin_stats_bounds now d :
  let out := get_admin_stats Date_parse now d in
  let stats := out.1.2 in
  out.1.1 = 200 ∧ out.2 = d ∧
  total stats = length (inquiries (readData d)) ∧
  (new stats + contacted stats + booked stats ≤ total stats)%nat ∧
  (thisWeek stats ≤ total stats)%nat ∧
  (Forall (λ i, status i = JStr (lit "new")
                ∨ status i = JStr (lit "contacted")
                ∨ status i = JStr (lit "booked")) (inquiries (readData d)) →
   (new stats + contacted stats + booked stats = total stats)%nat).
Proof.
  intros out stats. subst out stats. unfold get_admin_stats.
  cbn [fst snd total new contacted booked thisWeek].
  split; [done |]. split; [done |]. split; [done |].
  split; [| split; [apply filter_length_le |]].
  - induction (inquiries (readData d)) as [|i l IH]; [done |].
    rewrite !filter_length_cons. pose proof (status_is_exclusive i).
    simpl length. lia.
  - induction 1 as [|i l Hi Hl IH]; [done |].
    rewrite !filter_length_cons. simpl length.
    assert (count_if (status_is "new" i) + count_if (status_is "contacted" i)
            + count_if (status_is "booked" i) = 1)%nat; [| lia].
    unfold status_is. destruct Hi as [-> | [-> | ->]]; by vm_compute.
Qed.

(** X19. An accepted submission adds one to the total and one to the
    count of [new], leaves the other two counts by status, and adds one
    to the count of the week exactly when its creation time parses and
    is not more than seven days old. *)
Theorem submit_stats now1 now2 (body : gmap string jsval) d now :
  code (post_inquiry now1 now2 body d).1 = 201 →
  let before := (get_admin_stats Date_parse now d).1.2 in
  let after :=
    (get_admin_stats Date_parse now (post_inquiry now1 now2 body d).2).1.2 in
  total after = S (total before) ∧
  new after = S (new before) ∧
  contacted after = contacted before ∧
  booked after = booked before ∧
  thisWeek after
  = (thisWeek before + count_if (within_week Date_parse now now1))%nat.
Proof.
  intros Hcode before after. subst before after.
  destruct (post_inquiry now1 now2 body d) as [r d1] eqn:Hpost.
  revert Hpost Hcode. unfold post_inquiry.
  destruct (negb (truthy (field body "name")) || _ || _ || _);
    [intros [= <- <-]; done |].
  destruct (field body "phone") as [| | | |p];
    try (intros [= <- <-]; done).
  destruct (negb (test_anchored phone_regex (strip_spaces p)));
    [intros [= <- <-]; done |].
  intros [= <- <-] _. unfold get_admin_stats.
  cbn [fst snd total new contacted booked thisWeek readData content writeData
       inquiries].
  rewrite !List.filter_app, !length_app. cbn [List.filter].
  unfold created_since at 2. cbn [created_at]. cbn [length].
  change (status_is "new" _) with true.
  change (status_is "contacted" _) with false.
  change (status_is "booked" _) with false.
  cbn [length]. change (7 * 24 * 60 * 60 * 1000) with 604800000.
  unfold within_week.
  destruct (Date_parse now1) as [|t]; [simpl; lia |].
  destruct (now - 604800000 <=? t); simpl; lia.
Qed.

(** X20. An update leaves the total and the count of the week, and
    moves the inquiry it rewrites from the count of its old status to
    the count of its new one. *)
Theorem put_admin_inquiry_stats now id_param (body : gmap string jsval) d t :
  (∃ i, i ∈ inquiries (readData d) ∧ has_id (parseInt (JStr id_param)) i) →
  let before := (get_admin_stats Date_parse t d).1.2 in
  let after :=
    (get_admin_stats Date_parse t
       (put_admin_inquiry now id_param body d).2).1.2 in
  ∃ old,
    old ∈ inquiries (readData d) ∧ has_id (parseInt (JStr id_param)) old ∧
    let updated :=
      apply_update (field body "status") (field body "notes") now old in
    total after = total before ∧ thisWeek after = thisWeek before ∧
    (new after + count_if (status_is "new" old)
     = new before + count_if (status_is "new" updated))%nat ∧
    (contacted after + count_if (status_is "contacted" old)
     = contacted before + count_if (status_is "contacted" updated))%nat ∧
    (booked after + count_if (status_is "booked" old)
     = booked before + count_if (status_is "booked" updated))%nat.
Proof.
  intros Hex before after. subst before after. unfold put_admin_inquiry.
  pose proof (find_update_first
                (λ i, num_eqb (id i) (parseInt (JStr id_param)))
                (apply_update (field body "status") (field body "notes") now)
                (inquiries (readData d))) as Hfind.
  destruct (List.find _ (inquiries (readData d))) as [old|].
  - destruct Hfind as (l1 & l2 & Hsplit & Hold & _ & Hupd).
    exists old. split.
    { rewrite Hsplit. apply elem_of_app. right. by left. }
    split; [by apply num_eqb_has_id |].
    unfold get_admin_stats.
    cbn [fst snd total new contacted booked thisWeek readData content
         writeData inquiries].
    rewrite Hupd, Hsplit, !filter_length_middle, !length_app. cbn [length].
    unfold created_since at 1. cbn [created_at apply_update].
    fold (created_since Date_parse (t - 7 * 24 * 60 * 60 * 1000) old).
    repeat split; lia.
  - destruct Hex as (i & Hi & Hid). rewrite Forall_forall in Hfind.
    apply num_eqb_has_id in Hid. rewrite (Hfind i Hi) in Hid. done.
Qed.

(** X21. In a document reachable from the empty one, deleting an id
    that is present takes one off the total and one off each count to
    which the deleted inquiry belonged. *)
Theorem delete_admin_inquiry_stats id_param d t :
  reachable d →
  (∃ i, i ∈ inquiries (readData d) ∧ has_id (parseInt (JStr id_param)) i) →
  let before := (get_admin_stats Date_parse t d).1.2 in
  let after :=
    (get_admin_stats Date_parse t (delete_admin_inquiry id_param d).2).1.2 in
  ∃ old,
    old ∈ inquiries (readData d) ∧ has_id (parseInt (JStr id_param)) old ∧
    total before = S (total after) ∧
    (new before = new after + count_if (status_is "new" old))%nat ∧
    (contacted before
     = contacted after + count_if (status_is "contacted" old))%nat ∧
    (booked before = booked after + count_if (status_is "booked" old))%nat ∧
    (thisWeek before
     = thisWeek after
       + count_if (created_since Date_parse (t - 604800000) old))%nat.
Proof.
  intros Hreach Hex before after. subst before after.
  rewrite (delete_admin_inquiry_found id_param d Hex).
  destruct Hex as (old & Hin & Hid). exists old.
  split; [done |]. split; [done |].
  pose proof (reachable_ids_NoDup d Hreach) as Hnd.
  apply list_elem_of_split in Hin as (l1 & l2 & Hsplit).
  unfold has_id in Hid. rewrite Hid. rewrite Hsplit in Hnd.
  unfold get_admin_stats.
  cbn [fst snd total new contacted booked thisWeek readData content
       writeData inquiries].
  fold (readData d). rewrite Hsplit.
  rewrite (filter_unique_id (id old) l1 l2 old eq_refl Hnd).
  rewrite !filter_length_middle, !length_app. cbn [length].
  change (7 * 24 * 60 * 60 * 1000) with 604800000.
  repeat split; lia.
Qed.
End StatisticsFacts.

Lemma submit_stats_witness :
  let before := (get_admin_stats leading_number 2024 initDatabase).1.2 in
  let after :=
    (get_admin_stats leading_number 2024
       (post_inquiry (lit "2024-05-01T10:00:00.000Z")
          (lit "2024-05-01T10:00:00.000Z") sample_body initDatabase).2).1.2 in
  total after = S (total before) ∧
  new after = S (new before) ∧
  contacted after = contacted before ∧
  booked after = booked before ∧
  thisWeek after
  = (thisWeek before
     + count_if (within_week leading_number 2024
                   (lit "2024-05-01T10:00:00.000Z")))%nat.
Proof.
  apply (submit_stats leading_number (lit "2024-05-01T10:00:00.000Z")
           (lit "2024-05-01T10:00:00.000Z") sample_body initDatabase 2024).
  reflexivity.
Defined.

Lemma put_admin_inquiry_stats_witness :
  let before := (get_admin_stats leading_number 2024 disk_with_one).1.2 in
  let after :=
    (get_admin_stats leading_number 2024
       (put_admin_inquiry (lit "2024-05-02T08:30:00.000Z") (lit "1")
          update_contacted disk_with_one).2).1.2 in
  ∃ old,
    old ∈ inquiries (readData disk_with_one) ∧
    has_id (parseInt (JStr (lit "1"))) old ∧
    let updated :=
      apply_update (field update_contacted "status")
        (field update_contacted "notes") (lit "2024-05-02T08:30:00.000Z") old in
    total after = total before ∧ thisWeek after = thisWeek before ∧
    (new after + count_if (status_is "new" old)
     = new before + count_if (status_is "new" updated))%nat ∧
    (contacted after + count_if (status_is "contacted" old)
     = contacted before + count_if (status_is "contacted" updated))%nat ∧
    (booked after + count_if (status_is "booked" old)
     = booked before + count_if (status_is "booked" updated))%nat.
Proof.
  apply (put_admin_inquiry_stats leading_number
           (lit "2024-05-02T08:30:00.000Z") (lit "1") update_contacted
           disk_with_one 2024).
  eexists. split.
  - vm_compute. left.
  - reflexivity.
Defined.

Lemma delete_admin_inquiry_stats_witness :
  let before := (get_admin_stats leading_number 2024 disk_with_one).1.2 in
  let after :=
    (get_admin_stats leading_number 2024
       (delete_admin_inquiry (lit "1") disk_with_one).2).1.2 in
  ∃ old,
    old ∈ inquiries (readData disk_with_one) ∧
    has_id (parseInt (JStr (lit "1"))) old ∧
    total before = S (total after) ∧
    (new before = new after + count_if (status_is "new" old))%nat ∧
    (contacted before
     = contacted after + count_if (status_is "contacted" old))%nat ∧
    (booked before = booked after + count_if (status_is "booked" old))%nat ∧
    (thisWeek before
     = thisWeek after
       + count_if (created_since leading_number (2024 - 604800000) old))%nat.
Proof.
  apply (delete_admin_inquiry_stats leading_number (lit "1") disk_with_one 2024
           reachable_disk_with_one).
  eexists. split.
  - vm_compute. left.
  - reflexivity.
Defined.

(** ** Decoding the header *)

Lemma toString_ascii_fmap buf :
  toString_ascii buf = (λ b, N.land b 127) <$> buf.
Proof. done. Qed.

(** X22. The handler's decoding recovers the bytes that a client
    encoded, with the high bit of each byte cleared: seven-bit
    credentials arrive unchanged, others do not. *)
Theorem decode_encoded_bytes bytes :
  Forall (λ b, (b < 256)%N) bytes →
  toString_ascii (Buffer_from_base64 (base64_encode bytes))
  = (λ b, N.land b 127) <$> bytes ∧
  (toString_ascii (Buffer_from_base64 (base64_encode bytes)) = bytes
   ↔ ascii_only bytes).
Proof.
  intros Hbytes. rewrite (base64_roundtrip bytes Hbytes).
  split; [apply toString_ascii_fmap |]. split.
  - intros Hsame. unfold ascii_only.
    rewrite <- Hsame, toString_ascii_fmap, Forall_fmap.
    apply Forall_true. intros b. simpl.
    change 127%N with (N.ones 7). rewrite N.land_ones.
    apply N.mod_lt. done.
  - apply toString_ascii_id.
Qed.

Lemma decode_encoded_bytes_witness :
  toString_ascii (Buffer_from_base64 (base64_encode (lit "admin:pa:ss")))
  = (λ b, N.land b 127) <$> lit "admin:pa:ss" ∧
  (toString_ascii (Buffer_from_base64 (base64_encode (lit "admin:pa:ss")))
   = lit "admin:pa:ss"
   ↔ ascii_only (lit "admin:pa:ss")).
Proof.
  apply (decode_encoded_bytes (lit "admin:pa:ss")).
  vm_compute. repeat constructor.
Defined.

(** X23. Only the first token after the scheme is read: what follows
    a second space in the header is ignored. *)
Theorem check_credentials_ignores_rest env (b64 junk : jsstring) :
  (32%N ∉ b64) →
  check_credentials env (Some (lit "Basic " ++ b64 ++ lit " " ++ junk))
  = check_credentials env (Some (lit "Basic " ++ b64)).
Proof.
  intros Hspace. rewrite !check_credentials_header by done.
  rewrite !startsWith_app. cbn [negb].
  destruct (basic_header_parts b64 Hspace) as [_ ->].
  change (lit "Basic " ++ b64 ++ lit " " ++ junk)
    with (lit "Basic" ++ 32%N :: (b64 ++ 32%N :: junk)).
  rewrite split_at_sep, (split_at_sep 32 b64 junk Hspace); [done |].
  vm_compute. intros Hin.
  repeat (apply elem_of_cons in Hin as [Hin | Hin]; [discriminate |]).
  by apply elem_of_nil in Hin.
Qed.

Lemma check_credentials_ignores_rest_witness :
  check_credentials no_env
    (Some (lit "Basic " ++ lit "TWVodWwyMDAyMDpOaW5qYTIwMDJA" ++ lit " "
           ++ lit "realm=x"))
  = check_credentials no_env
      (Some (lit "Basic " ++ lit "TWVodWwyMDAyMDpOaW5qYTIwMDJA")).
Proof.
  apply (check_credentials_ignores_rest no_env
           (lit "TWVodWwyMDAyMDpOaW5qYTIwMDJA") (lit "realm=x")).
  vm_compute. intros Hin.
  repeat (apply elem_of_cons in Hin as [Hin | Hin]; [discriminate |]).
  by apply elem_of_nil in Hin.
Defined.

(** ** The id of the admin routes *)

Lemma put_delete_by_number (id1 id2 : jsstring) :
  parseInt (JStr id1) = parseInt (JStr id2) →
  (∀ now body d,
     put_admin_inquiry now id1 body d = put_admin_inquiry now id2 body d) ∧
  (∀ d, delete_admin_inquiry id1 d = delete_admin_inquiry id2 d).
Proof.
  intros Heq. unfold put_admin_inquiry, delete_admin_inquiry.
  by rewrite Heq.
Qed.

(** X24. The id of the update and delete routes is read by [parseInt]:
    text after the numeral is ignored, and an id that does not start
    with a number is answered 404 without a write. *)
Theorem admin_routes_id_param k (rest : jsstring) :
  (∀ c r, rest = c :: r → ends_numeral c) →
  (∀ now body d,
     put_admin_inquiry now (decimal k ++ rest) body d
     = put_admin_inquiry now (decimal k) body d) ∧
  (∀ d, delete_admin_inquiry (decimal k ++ rest) d
        = delete_admin_inquiry (decimal k) d) ∧
  (∀ id_param now body d,
     parseInt (JStr id_param) = NaN →
     put_admin_inquiry now id_param body d
     = (respond 404 (JError "Inquiry not found"), d) ∧
     delete_admin_inquiry id_param d
     = (respond 404 (JError "Inquiry not found"), d)).
Proof.
  intros Hrest.
  destruct (put_delete_by_number (decimal k ++ rest) (decimal k)) as [Hput Hdel].
  { rewrite parseInt_id. unfold parseInt. cbn [ToString].
    by apply parseInt_string_decimal. }
  split; [exact Hput |]. split; [exact Hdel |].
  intros id_param now body d Hnan. split.
  - unfold put_admin_inquiry. rewrite Hnan.
    assert (Hnone : List.find (λ i, num_eqb (id i) NaN) (inquiries (readData d))
                    = None).
    { induction (inquiries (readData d)) as [|a l IH]; [done | exact IH]. }
    by rewrite Hnone.
  - apply delete_admin_inquiry_absent. rewrite Hnan.
    intros (i & _ & Hid). discriminate.
Qed.

Lemma admin_routes_id_param_witness :
  (∀ now body d,
     put_admin_inquiry now (decimal 7 ++ lit "abc") body d
     = put_admin_inquiry now (decimal 7) body d) ∧
  (∀ d, delete_admin_inquiry (decimal 7 ++ lit "abc") d
        = delete_admin_inquiry (decimal 7) d) ∧
  (∀ id_param now body d,
     parseInt (JStr id_param) = NaN →
     put_admin_inquiry now id_param body d
     = (respond 404 (JError "Inquiry not found"), d) ∧
     delete_admin_inquiry id_param d
     = (respond 404 (JError "Inquiry not found"), d)).
Proof.
  apply (admin_routes_id_param 7 (lit "abc")).
  intros c r Heq. vm_compute in Heq. injection Heq as <- _.
  unfold ends_numeral. lia.
Defined.
